(** * Mood-journal backend: request handlers over a modelled store

    A shallow embedding of the two variants of the service
    ([src/app.js], called variant A, and [src/unnamed/part_000], called
    variant B).  The handlers are written as the sources write them:
    presence checks on the request fields, statements sent through
    [pool.query] inside [try]/[catch], and the JavaScript post-processing
    of the rows.

    Conventions of the model:
    - a JavaScript string is the sequence of its UTF-16 code units; the
      model covers strings whose code units are all below 256, so a code
      unit is an [ascii];
    - a request field is [option string]: [None] is an absent field
      (fields that arrive as numbers, arrays or objects are outside the
      model), and the [triggers] of a request body is an optional array of
      strings;
    - a number is a [Z].  [parseInt] may return NaN, which is [None];
    - a timestamp is a [Z] counting microseconds. *)

From Stdlib Require Import ZArith Ascii String DecimalString DecimalZ.
From stdpp Require Import base option list sorting strings gmap.

Local Open Scope Z_scope.

(** ** JavaScript string primitives *)

Module JS.

(** Code unit of a character. *)
Definition charCode (c : ascii) : Z := Z.of_N (N_of_ascii c).

(** ECMAScript [WhiteSpace] and [LineTerminator] below 256: TAB, LF, VT,
    FF, CR, SP and NBSP. *)
Definition isWhiteSpace (c : ascii) : bool :=
  let n := charCode c in
  ((9 <=? n) && (n <=? 13)) || (n =? 32) || (n =? 160).

Fixpoint trimStart (s : string) : string :=
  match s with
  | String c s' => if isWhiteSpace c then trimStart s' else s
  | EmptyString => EmptyString
  end.

Fixpoint trimEnd (s : string) : string :=
  match s with
  | EmptyString => EmptyString
  | String c s' =>
      match trimEnd s' with
      | EmptyString => if isWhiteSpace c then EmptyString else String c EmptyString
      | t => String c t
      end
  end.

(** [String.prototype.trim] *)
Definition trim (s : string) : string := trimEnd (trimStart s).

(** [String.prototype.split] with a one-character separator: the pieces
    between the separators, in order; the empty string has one (empty)
    piece. *)
Fixpoint split (sep : ascii) (s : string) : list string :=
  match s with
  | EmptyString => [EmptyString]
  | String c s' =>
      if Ascii.eqb c sep then EmptyString :: split sep s'
      else match split sep s' with
           | p :: ps => String c p :: ps
           | [] => [String c EmptyString]
           end
  end.

(** [Array.prototype.join] *)
Fixpoint join (sep : ascii) (l : list string) : string :=
  match l with
  | [] => EmptyString
  | [p] => p
  | p :: ps => p +:+ String sep (join sep ps)
  end.

(** [String.prototype.toLowerCase] on code units below 256: A-Z and the
    Latin-1 capitals (all of 192..222 but the multiplication sign 215)
    move up by 32. *)
Definition lowerChar (c : ascii) : ascii :=
  let n := charCode c in
  if ((65 <=? n) && (n <=? 90)) || ((192 <=? n) && (n <=? 222) && negb (n =? 215))
  then ascii_of_N (Z.to_N (n + 32))
  else c.

Fixpoint toLowerCase (s : string) : string :=
  match s with
  | EmptyString => EmptyString
  | String c s' => String (lowerChar c) (toLowerCase s')
  end.

(** Value of a character as a digit of the radix, if it is one. *)
Definition digitValue (radix : Z) (c : ascii) : option Z :=
  let n := charCode c in
  let v := if (48 <=? n) && (n <=? 57) then Some (n - 48)
           else if (97 <=? n) && (n <=? 122) then Some (n - 87)
           else if (65 <=? n) && (n <=? 90) then Some (n - 55)
           else None in
  match v with
  | Some d => if d <? radix then Some d else None
  | None => None
  end.

(** The integer written by the longest prefix of digits; [acc] is the
    value read so far, [None] while no digit was read. *)
Fixpoint parseDigits (radix : Z) (s : string) (acc : option Z) : option Z :=
  match s with
  | String c s' =>
      match digitValue radix c with
      | Some d =>
          parseDigits radix s'
            (Some (match acc with Some a => a * radix + d | None => d end))
      | None => acc
      end
  | EmptyString => acc
  end.

(** [parseInt(string)] with no radix argument: leading white space is
    skipped, then an optional sign, then an optional [0x]/[0X] (radix 16,
    otherwise radix 10), then the longest prefix of digits; no digit gives
    NaN.  The result is the exact integer: the handler only compares it
    with 0 and 365, and rounding to a double is monotone and fixes both,
    so the comparisons agree with those on the rounded number. *)
Definition parseInt (s : string) : option Z :=
  let s1 := trimStart s in
  let '(sign, s2) :=
    match s1 with
    | String "-" r => (-1, r)
    | String "+" r => (1, r)
    | _ => (1, s1)
    end in
  let '(radix, s3) :=
    match s2 with
    | String "0" (String "x" r) => (16, r)
    | String "0" (String "X" r) => (16, r)
    | _ => (10, s2)
    end in
  match parseDigits radix s3 None with
  | Some n => Some (sign * n)
  | None => None
  end.

(** Number to string, as a template literal does it, for an integer
    (decimal digits, a minus sign when negative; exact below 10^21). *)
Definition numberToString (n : Z) : string :=
  NilZero.string_of_int (Z.to_int n).

(** Truthiness of an optional string: [undefined] and the empty string
    are falsy. *)
Definition truthy (o : option string) : bool :=
  match o with
  | Some s => negb (String.eqb s "")
  | None => false
  end.

(** The members every object literal inherits from [Object.prototype]. *)
Definition ObjectPrototype : list string :=
  [ "constructor"; "__proto__"; "hasOwnProperty"; "isPrototypeOf";
    "propertyIsEnumerable"; "toLocaleString"; "toString"; "valueOf";
    "__defineGetter__"; "__defineSetter__"; "__lookupGetter__";
    "__lookupSetter__" ].

Definition inherited (k : string) : bool :=
  bool_decide (k ∈ ObjectPrototype).

(** String conversion of an inherited member, as V8 prints it. *)
Definition inheritedText (k : string) : string :=
  if String.eqb k "__proto__" then "[object Object]"
  else if String.eqb k "constructor" then "function Object() { [native code] }"
  else "function " +:+ k +:+ "() { [native code] }".

(** Result of reading [obj[k]] on an object literal. *)
Inductive property (A : Type) : Type :=
| Own (a : A)
| Inherited (k : string)
| Undefined.
Arguments Own {A} a.
Arguments Inherited {A} k.
Arguments Undefined {A}.

End JS.

(** ** The store

    PostgreSQL behind [pool]: the two account tables the sources name
    ([users], and [user1] in variant B), the [moods] table, the clock that
    [NOW()] reads, whether the server answers, and the statements handed
    to [pool.query] so far. *)

Module Users.
Record row := { email : string; password : string }.
End Users.

Module Moods.
(** [triggers] is a [text[]] column; nothing in the sources makes it
    [NOT NULL], and the history handler guards against a null. *)
Record row := {
  email : string;
  mood : string;
  triggers : option (list string);
  created_at : Z
}.
End Moods.

(** A row of [SELECT mood, triggers, created_at]: what the history
    handler calls [entry]. *)
Module Entry.
Record row := {
  mood : string;
  triggers : option (list string);
  created_at : Z
}.
End Entry.

Record Database := {
  users : list Users.row;
  user1 : list Users.row;
  moods : list Moods.row
}.

(** A value bound to [$1], [$2], ... *)
Inductive param :=
| Text (s : string)
| TextArray (l : list string).

Record Pool := {
  db : Database;
  NOW : Z;
  reachable : bool;
  issued : list (string * list param)
}.

(** One day of an [INTERVAL], in microseconds. *)
Definition day : Z := 86400000000.

(** *** Meaning of the statements *)

Inductive account_table := table_users | table_user1.

Definition read_accounts (t : account_table) (d : Database) : list Users.row :=
  match t with table_users => users d | table_user1 => user1 d end.

(** [SELECT * FROM t WHERE email = $1] *)
Definition select_account (t : account_table) (email : string)
    (d : Database) (now : Z) : list Users.row * Database :=
  (List.filter (fun u => String.eqb (Users.email u) email) (read_accounts t d), d).

(** [INSERT INTO t (email, password) VALUES ($1, $2)] *)
Definition insert_account (t : account_table) (email password : string)
    (d : Database) (now : Z) : unit * Database :=
  let r := {| Users.email := email; Users.password := password |} in
  (tt, match t with
       | table_users => {| users := users d ++ [r]; user1 := user1 d; moods := moods d |}
       | table_user1 => {| users := users d; user1 := user1 d ++ [r]; moods := moods d |}
       end).

(** [INSERT INTO moods (email, mood, triggers, created_at)
     VALUES ($1, $2, $3, NOW())] *)
Definition insert_mood (email mood : string) (triggers : list string)
    (d : Database) (now : Z) : unit * Database :=
  let r := {| Moods.email := email; Moods.mood := mood;
              Moods.triggers := Some triggers; Moods.created_at := now |} in
  (tt, {| users := users d; user1 := user1 d; moods := moods d ++ [r] |}).

(** [a && b] on arrays: some element of [a] is an element of [b]. *)
Definition overlap (a b : list string) : bool :=
  existsb (fun x => existsb (String.eqb x) b) a.

(** The [WHERE] clause of the history statement; [filter] is [$2] when the
    clause [AND triggers && $2::text[]] was added.  A null array overlaps
    nothing. *)
Definition history_where (daysInt : Z) (email : string)
    (filter : option (list string)) (now : Z) (m : Moods.row) : bool :=
  String.eqb (Moods.email m) email
  && (now - daysInt * day <=? Moods.created_at m)
  && match filter with
     | None => true
     | Some f =>
         match Moods.triggers m with
         | Some ts => overlap ts f
         | None => false
         end
     end.

(** The [SELECT] list. *)
Definition select_columns (m : Moods.row) : Entry.row :=
  {| Entry.mood := Moods.mood m; Entry.triggers := Moods.triggers m;
     Entry.created_at := Moods.created_at m |}.

(** [ORDER BY created_at DESC]: the relation between a row and any row
    after it. *)
Definition created_at_desc (a b : Entry.row) : Prop :=
  Entry.created_at b <= Entry.created_at a.

#[global] Instance created_at_desc_dec a b : Decision (created_at_desc a b).
Proof. unfold created_at_desc. apply _. Defined.

(** [SELECT mood, triggers, created_at FROM moods WHERE email = $1
     AND created_at >= NOW() - INTERVAL 'daysInt days' [AND triggers &&
     $2::text[]] ORDER BY created_at DESC].  PostgreSQL leaves the order
     of rows with equal [created_at] open; the model keeps one. *)
Definition select_history (daysInt : Z) (email : string)
    (filter : option (list string))
    (d : Database) (now : Z) : list Entry.row * Database :=
  (merge_sort created_at_desc
     (map select_columns (List.filter (history_where daysInt email filter now) (moods d))),
   d).

(** *** The asynchronous calls *)

Inductive settled (A : Type) : Type :=
| Resolved (a : A) (p : Pool)
| Rejected (p : Pool).
Arguments Resolved {A} a p.
Arguments Rejected {A} p.

Definition Async (A : Type) : Type := Pool -> settled A.

Definition resolve {A} (a : A) : Async A := fun p => Resolved a p.

(** [await]: a request is followed on its own, from its first statement
    to its answer; the requests that the server would run while this one
    waits for the store are not modelled. *)
Definition await {A B} (c : Async A) (k : A -> Async B) : Async B :=
  fun p =>
    match c p with
    | Resolved a p' => k a p'
    | Rejected p' => Rejected p'
    end.

Definition try_catch {A} (body handler : Async A) : Async A :=
  fun p =>
    match body p with
    | Resolved a p' => Resolved a p'
    | Rejected p' => handler p'
    end.

Notation "'let_await' x := c 'in' k" := (await c (fun x => k))
  (at level 10, x name, c at level 100, k at level 200).

(** [pool.query(text, values)]: the statement is handed to the driver; it
    rejects when the server does not answer, and otherwise resolves with
    what the statement means on the tables. *)
Definition pool_query {A} (text : string) (values : list param)
    (meaning : Database -> Z -> A * Database) : Async A :=
  fun p =>
    let handed := issued p ++ [(text, values)] in
    if reachable p then
      let '(a, d) := meaning (db p) (NOW p) in
      Resolved a {| db := d; NOW := NOW p; reachable := true; issued := handed |}
    else
      Rejected {| db := db p; NOW := NOW p; reachable := false; issued := handed |}.

(** ** Responses *)

Inductive jsval :=
| Num (n : Z)
| Str (s : string).

(** A quote object: its members in order, each a string, a number or an
    array of strings. *)
Inductive member :=
| JString (s : string)
| JNumber (n : Z)
| JStrings (l : list string).

Definition object : Type := list (string * member).

Inductive payload :=
| Message (message : string)
| History (moodHistory : list Entry.row) (triggerCounts : gmap string jsval)
| Quotes (quotes : list object)
| Prototype (k : string).

Record Response := { status : Z; body : payload }.

Definition respond (code : Z) (b : payload) : Async Response :=
  resolve {| status := code; body := b |}.

(** A handler never rejects: what it answers and the pool it leaves. *)
Definition answer (h : Async Response) (p : Pool) : Response * Pool :=
  match h p with
  | Resolved r p' => (r, p')
  | Rejected p' => ({| status := 500; body := Message "" |}, p')
  end.

(** The two sources. *)
Inductive variant := VariantA | VariantB.

(** ** Signup and login *)

(** Table the signup handler looks the email up in: [users] in both
    sources. *)
Definition signup_lookup_table (v : variant) : account_table := table_users.

(** Table the signup handler inserts into: [users] in variant A, [user1]
    in variant B. *)
Definition signup_insert_table (v : variant) : account_table :=
  match v with VariantA => table_users | VariantB => table_user1 end.

(** Table the login handler reads: [users] in variant A, [user1] in
    variant B. *)
Definition login_table (v : variant) : account_table :=
  match v with VariantA => table_users | VariantB => table_user1 end.

Definition table_name (t : account_table) : string :=
  match t with table_users => "users" | table_user1 => "user1" end.

Definition or_empty (o : option string) : string := default "" o.

(** [POST /api/auth/signup] *)
Definition signup (v : variant) (email password : option string) : Async Response :=
  if negb (JS.truthy email) || negb (JS.truthy password) then
    respond 400 (Message "Email and password required")
  else
    let email := or_empty email in
    let password := or_empty password in
    try_catch
      (let_await existingUser :=
         pool_query ("SELECT * FROM " +:+ table_name (signup_lookup_table v) +:+ " WHERE email = $1")
           [Text email] (select_account (signup_lookup_table v) email) in
       if 0 <? Z.of_nat (length existingUser) then
         respond 400 (Message "User already exists")
       else
         let_await _ :=
           pool_query ("INSERT INTO " +:+ table_name (signup_insert_table v)
                         +:+ " (email, password) VALUES ($1, $2)")
             [Text email; Text password]
             (insert_account (signup_insert_table v) email password) in
         respond 201 (Message "User registered successfully"))
      (respond 500 (Message "Server error")).

(** [POST /api/auth/login] *)
Definition login (v : variant) (email password : option string) : Async Response :=
  if negb (JS.truthy email) || negb (JS.truthy password) then
    respond 400 (Message "Email and password required")
  else
    let email := or_empty email in
    let password := or_empty password in
    try_catch
      (let_await userRes :=
         pool_query ("SELECT * FROM " +:+ table_name (login_table v) +:+ " WHERE email = $1")
           [Text email] (select_account (login_table v) email) in
       match userRes with
       | [] => respond 400 (Message "User not found. Please sign up first.")
       | user :: _ =>
           if negb (String.eqb (Users.password user) password) then
             respond 401 (Message "Incorrect password")
           else
             respond 200 (Message "Login successful")
       end)
      (respond 500 (Message "Server error")).

(** ** Saving a mood *)

(** [triggers || []] *)
Definition or_no_triggers (triggers : option (list string)) : list string :=
  default [] triggers.

(** [POST /api/mood]; the two sources differ in the message of the 201. *)
Definition save_mood (v : variant) (email mood : option string)
    (triggers : option (list string)) : Async Response :=
  if negb (JS.truthy email) || negb (JS.truthy mood) then
    respond 400 (Message "Email and mood are required")
  else
    let email := or_empty email in
    let mood := or_empty mood in
    try_catch
      (let_await _ :=
         pool_query
           "INSERT INTO moods (email, mood, triggers, created_at) VALUES ($1, $2, $3, NOW())"
           [Text email; Text mood; TextArray (or_no_triggers triggers)]
           (insert_mood email mood (or_no_triggers triggers)) in
       respond 201
         (Message match v with
                  | VariantA => "Mood saved successfully"
                  | VariantB => ""
                  end))
      (respond 500 (Message "Error saving mood")).

(** ** Mood history *)

(** The filter of the request:
    [triggers.split(',').map(t => t.trim()).filter(t => t.length > 0)]
    when [triggers] is truthy, the empty array otherwise. *)
Definition triggersArray (triggers : option string) : list string :=
  if JS.truthy triggers then
    List.filter (fun t => 0 <? Z.of_nat (String.length t))
      (map JS.trim (JS.split "," (or_empty triggers)))
  else [].

Definition newline : string := String (ascii_of_nat 10) EmptyString.

(** The template literal of the statement, with [daysInt] interpolated. *)
Definition select_template (daysInt : Z) : string :=
  newline +:+ "      SELECT mood, triggers, created_at"
  +:+ newline +:+ "      FROM moods"
  +:+ newline +:+ "      WHERE email = $1"
  +:+ newline +:+ "        AND created_at >= NOW() - INTERVAL '"
  +:+ JS.numberToString daysInt +:+ " days'"
  +:+ newline +:+ "    ".

(** [queryText] and [queryParams] as the handler builds them. *)
Definition build_query (daysInt : Z) (email : string) (triggersArray : list string)
    : string * list param :=
  let queryText := select_template daysInt in
  let queryParams := [Text email] in
  let '(queryText, queryParams) :=
    if 0 <? Z.of_nat (length triggersArray) then
      (queryText +:+ " AND triggers && $2::text[]", queryParams ++ [TextArray triggersArray])
    else (queryText, queryParams) in
  (queryText +:+ " ORDER BY created_at DESC", queryParams).

(** The filter the built statement applies: [$2] when its clause is there. *)
Definition bound_filter (triggersArray : list string) : option (list string) :=
  if 0 <? Z.of_nat (length triggersArray) then Some triggersArray else None.

(** [triggerCounts[trigger]] on the object that started as [{}]. *)
Definition get (o : gmap string jsval) (k : string) : JS.property jsval :=
  match o !! k with
  | Some v => JS.Own v
  | None => if JS.inherited k then JS.Inherited k else JS.Undefined
  end.

(** [(x || 0) + 1]: a number is incremented; anything else that is truthy
    is turned into a string and gets the character 1 appended. *)
Definition or_zero_plus_one (x : JS.property jsval) : jsval :=
  match x with
  | JS.Own (Num n) => Num (n + 1)
  | JS.Own (Str s) => if String.eqb s "" then Num 1 else Str (s +:+ "1")
  | JS.Inherited k => Str (JS.inheritedText k +:+ "1")
  | JS.Undefined => Num 1
  end.

(** [triggerCounts[k] = v] for a number or a string [v]: the setter of
    [__proto__] ignores it, any other key becomes an own property. *)
Definition set (o : gmap string jsval) (k : string) (v : jsval) : gmap string jsval :=
  if String.eqb k "__proto__" then o else <[k := v]> o.

(** The body of the inner [forEach]. *)
Definition count_trigger (triggerCounts : gmap string jsval) (trigger : string)
    : gmap string jsval :=
  set triggerCounts trigger (or_zero_plus_one (get triggerCounts trigger)).

(** The body of the outer [forEach], over [entry.triggers || []]. *)
Definition count_entry (triggerCounts : gmap string jsval) (entry : Entry.row)
    : gmap string jsval :=
  foldl count_trigger triggerCounts (default [] (Entry.triggers entry)).

Definition count_triggers (moodHistory : list Entry.row) : gmap string jsval :=
  foldl count_entry ∅ moodHistory.

(** [GET /api/mood/history], the same in both sources. *)
Definition history (email days triggers : option string) : Async Response :=
  if negb (JS.truthy email) || negb (JS.truthy days) then
    respond 400 (Message "Missing email or days parameter")
  else
    let email := or_empty email in
    match JS.parseInt (or_empty days) with
    | None =>
        (* isNaN(daysInt) *)
        respond 400 (Message "Invalid days parameter. Must be between 1 and 365.")
    | Some daysInt =>
        (* daysInt <= 0 || daysInt > 365 *)
        if (daysInt <=? 0) || (365 <? daysInt) then
          respond 400 (Message "Invalid days parameter. Must be between 1 and 365.")
        else
          let triggersArray := triggersArray triggers in
          try_catch
            (let '(queryText, queryParams) := build_query daysInt email triggersArray in
             let_await moodHistory :=
               pool_query queryText queryParams
                 (select_history daysInt email (bound_filter triggersArray)) in
             respond 200 (History moodHistory (count_triggers moodHistory)))
            (respond 500 (Message "Server error while retrieving mood history"))
    end.

(** ** Quotes *)

(** [obj[k]] on an object literal with the members [o]. *)
Fixpoint get_literal {A} (o : list (string * A)) (k : string) : JS.property A :=
  match o with
  | (k', a) :: o' => if String.eqb k' k then JS.Own a else get_literal o' k
  | [] => if JS.inherited k then JS.Inherited k else JS.Undefined
  end.

(** Variant A: the keyword table. *)
Definition moodKeywords : list (string * string) :=
  [ ("happy", "inspirational"); ("sad", "life");
    ("angry", "anger"); ("relaxed", "peace") ].

(** [moodKeywords[mood.toLowerCase()] || 'motivational'], as the text the
    template literal of the URL puts in. *)
Definition keyword (mood : string) : string :=
  match get_literal moodKeywords (JS.toLowerCase mood) with
  | JS.Own s => if String.eqb s "" then "motivational" else s
  | JS.Inherited k => JS.inheritedText k
  | JS.Undefined => "motivational"
  end.

Definition quotes_url (mood : string) : string :=
  "https://api.quotable.io/quotes?tags=" +:+ keyword mood +:+ "&limit=3".

(** What [fetch] and [response.json()] give for a URL: a failure, or the
    data with its [results] member (absent, or an array of objects). *)
Inductive fetched :=
| Failed
| Data (results : option (list object)).

(** Variant B: an entry of the static table. *)
Definition quote (id content author : string) : object :=
  [ ("_id", JString id); ("content", JString content); ("author", JString author) ].

(** Variant B: the static table.  The texts are payload that no handler
    inspects; a character outside ASCII stands in a literal as its UTF-8
    bytes. *)
Definition staticQuotes : list (string * list object) :=
  [
    ("happy",
     [
       quote "1"
         "Happiness depends upon ourselves."
         "Aristotle";
       quote "2"
         "For every minute you are angry you lose sixty seconds of happiness."
         "Ralph Waldo Emerson";
       quote "3"
         "The purpose of our lives is to be happy."
         "Dalai Lama";
       quote "4"
         "Happiness is not something ready made. It comes from your own actions."
         "Dalai Lama";
       quote "5"
         "Count your age by friends, not years. Count your life by smiles, not tears."
         "John Lennon";
       quote "6"
         "Let us be grateful to the people who make us happy."
         "Marcel Proust" ]);
    ("calm",
     [
       quote "25"
         "Peace comes from within. Do not seek it without."
         "Buddha";
       quote "26"
         "The nearer a man comes to a calm mind, the closer he is to strength."
         "Marcus Aurelius";
       quote "27"
         "Calm mind brings inner strength and self-confidence."
         "Dalai Lama";
       quote "28"
         "Silence is a source of great strength."
         "Lao Tzu";
       quote "29"
         "Serenity is not freedom from the storm, but peace amid the storm."
         "Unknown";
       quote "30"
         "In the midst of movement and chaos, keep stillness inside of you."
         "Deepak Chopra" ]);
    ("neutral",
     [
       quote "49"
         "Life is ten percent what happens to you and ninety percent how you respond to it."
         "Charles R. Swindoll";
       quote "50"
         "Staying neutral doesn't mean you don't care—it means you’re letting balance lead."
         "Unknown";
       quote "51"
         "Stillness speaks louder than noise."
         "Eckhart Tolle";
       quote "52"
         "There is a calmness to a life lived in gratitude."
         "Ralph H. Blum";
       quote "53"
         "Sometimes doing nothing is the best response."
         "Unknown";
       quote "54"
         "Equanimity is the hallmark of spiritual maturity."
         "Eknath Easwaran" ]);
    ("worried",
     [
       quote "31"
         "You don’t have to control your thoughts. You just have to stop letting them control you."
         "Dan Millman";
       quote "32"
         "Nothing diminishes anxiety faster than action."
         "Walter Anderson";
       quote "33"
         "Worrying doesn’t take away tomorrow’s troubles, it takes away today’s peace."
         "Randy Armstrong";
       quote "34"
         "Anxiety does not empty tomorrow of its sorrows, but only empties today of its strength."
         "Charles Spurgeon";
       quote "35"
         "You are stronger than you think."
         "Unknown";
       quote "36"
         "Smile, breathe, and go slowly."
         "Thich Nhat Hanh" ]);
    ("sad",
     [
       quote "7"
         "Tears come from the heart and not from the brain."
         "Leonardo da Vinci";
       quote "8"
         "Sadness flies away on the wings of time."
         "Jean de La Fontaine";
       quote "9"
         "Every human walks around with a certain kind of sadness."
         "Unknown";
       quote "10"
         "You cannot protect yourself from sadness without protecting yourself from happiness."
         "Jonathan Safran Foer";
       quote "11"
         "Crying is all right in its way while it lasts."
         "C.S. Lewis";
       quote "12"
         "The good times of today are the sad thoughts of tomorrow."
         "Bob Marley" ]);
    ("frustrated",
     [
       quote "55"
         "Frustration, although quite painful at times, is a very positive and essential part of success."
         "Bo Bennett";
       quote "56"
         "Sometimes things have to go wrong before they can go right."
         "Sherrilyn Kenyon";
       quote "57"
         "Out of difficulties grow miracles."
         "Jean de La Bruyère";
       quote "58"
         "Frustration is a sign that you’re trying to make things better."
         "Unknown";
       quote "59"
         "Patience is the antidote to frustration."
         "Unknown";
       quote "60"
         "It’s okay to be frustrated. It’s not okay to give up."
         "Unknown" ]);
    ("angry",
     [
       quote "13"
         "Speak when you are angry and you will make the best speech you will ever regret."
         "Ambrose Bierce";
       quote "14"
         "Anger is a short madness."
         "Horace";
       quote "15"
         "Never go to bed mad. Stay up and fight."
         "Phyllis Diller";
       quote "16"
         "Anger is an acid that can do more harm to the vessel in which it is stored."
         "Mark Twain";
       quote "17"
         "Holding on to anger is like drinking poison and expecting the other person to die."
         "Buddha";
       quote "18"
         "For every minute you remain angry, you give up sixty seconds of peace of mind."
         "Ralph Waldo Emerson" ]);
    ("loved",
     [
       quote "61"
         "Being deeply loved by someone gives you strength, while loving someone deeply gives you courage."
         "Lao Tzu";
       quote "62"
         "Where there is love there is life."
         "Mahatma Gandhi";
       quote "63"
         "Love cures people—both the ones who give it and the ones who receive it."
         "Karl A. Menninger";
       quote "64"
         "To love and be loved is to feel the sun from both sides."
         "David Viscott";
       quote "65"
         "The best thing to hold onto in life is each other."
         "Audrey Hepburn";
       quote "66"
         "You are loved more than you will ever know."
         "Unknown" ])
  ].

(** [GET /api/quotes].  Variant A asks the provider; variant B answers
    from the static table and touches neither the provider nor the
    store. *)
Definition quotes (v : variant) (fetch : string -> fetched) (mood : option string)
    : Async Response :=
  if negb (JS.truthy mood) then
    respond 400 (Message "Mood is required")
  else
    let mood := or_empty mood in
    match v with
    | VariantA =>
        match fetch (quotes_url mood) with
        | Failed => respond 500 (Message "Failed to fetch quotes")
        | Data None => respond 404 (Message "No quotes found")
        | Data (Some []) => respond 404 (Message "No quotes found")
        | Data (Some results) => respond 200 (Quotes results)
        end
    | VariantB =>
        match get_literal staticQuotes (JS.toLowerCase mood) with
        | JS.Own quotes => respond 200 (Quotes quotes)
        | JS.Inherited k => respond 200 (Prototype k)
        | JS.Undefined => respond 200 (Quotes [])
        end
    end.

(** ** Reading the claims: what the statements count and select *)

(** The triggers of a returned entry ([entry.triggers || []]). *)
Definition entry_triggers (entry : Entry.row) : list string :=
  default [] (Entry.triggers entry).

(** Number of times [T] is written in one trigger array. *)
Definition hits (T : string) (ts : list string) : Z :=
  Z.of_nat (length (filter (T =.) ts)).

(** Number of times [T] is written in the trigger arrays of the rows. *)
Definition occurrences (T : string) (rows : list Entry.row) : Z :=
  Z.of_nat (length (filter (T =.) (concat (map entry_triggers rows)))).

(** Number of rows whose trigger array contains [T]. *)
Definition entries_containing (T : string) (rows : list Entry.row) : Z :=
  Z.of_nat (length (filter (fun entry => T ∈ entry_triggers entry) rows)).

(** The table entry for a count: no key for 0, the number otherwise. *)
Definition tally (n : Z) : option jsval :=
  if n =? 0 then None else Some (Num n).

(** The frequency table as the specification words it: every trigger is
    mapped to the number of returned entries that contain it. *)
Definition frequency_by_entries (rows : list Entry.row)
    (counts : gmap string jsval) : Prop :=
  forall T, counts !! T = tally (entries_containing T rows).

(** The shape the specification gives to a quote object. *)
Definition shape_id_content_author (q : object) : Prop :=
  map fst q = ["id"; "content"; "author"].

(** The shape the static table gives to a quote object. *)
Definition shape_underscore_id (q : object) : Prop :=
  map fst q = ["_id"; "content"; "author"].

(** A string made of white space only. *)
Fixpoint allWhiteSpace (s : string) : bool :=
  match s with
  | EmptyString => true
  | String c s' => JS.isWhiteSpace c && allWhiteSpace s'
  end.

(** White space at either end of a string. *)
Definition startsWithWhiteSpace (s : string) : bool :=
  match s with
  | String c _ => JS.isWhiteSpace c
  | EmptyString => false
  end.

Fixpoint endsWithWhiteSpace (s : string) : bool :=
  match s with
  | EmptyString => false
  | String c EmptyString => JS.isWhiteSpace c
  | String _ s' => endsWithWhiteSpace s'
  end.

(** The character occurs in the string. *)
Fixpoint occursIn (c : ascii) (s : string) : bool :=
  match s with
  | EmptyString => false
  | String c' s' => Ascii.eqb c' c || occursIn c s'
  end.

(** A string of one to three decimal digits. *)
Definition shortDecimal (s : string) : bool :=
  match s with
  | String a r =>
      (Nat.leb (String.length s) 3)
      && forallb (fun c => (48 <=? JS.charCode c) && (JS.charCode c <=? 57))
           (list_ascii_of_string s)
  | EmptyString => false
  end.

(** The log [after] is the log [before] followed by one history
    statement whose interpolated number is the [k] that [parseInt] reads
    from [days], with [1 <= k <= 365], written with one to three decimal
    digits that read back as [k]; the rest of the text is fixed, up to the
    presence of the trigger clause. *)
Definition one_statement_with_checked_interval (days : option string)
    (before after : list (string * list param)) : Prop :=
  exists (k : Z) (with_trigger_clause : bool) (queryParams : list param),
    JS.parseInt (or_empty days) = Some k
    /\ 1 <= k <= 365
    /\ shortDecimal (JS.numberToString k) = true
    /\ JS.parseInt (JS.numberToString k) = Some k
    /\ let selection :=
         newline +:+ "      SELECT mood, triggers, created_at"
         +:+ newline +:+ "      FROM moods"
         +:+ newline +:+ "      WHERE email = $1"
         +:+ newline +:+ "        AND created_at >= NOW() - INTERVAL '"
         +:+ JS.numberToString k +:+ " days'"
         +:+ newline +:+ "    " in
       let queryText :=
         if with_trigger_clause
         then (selection +:+ " AND triggers && $2::text[]") +:+ " ORDER BY created_at DESC"
         else selection +:+ " ORDER BY created_at DESC" in
       after = before ++ [(queryText, queryParams)].

(** An entry matches a history query as the specification words it: it
    belongs to the owner, it is not older than [N] days, and either the
    filter is empty or some trigger of the entry is in the filter. *)
Definition matches_query (owner : string) (N : Z) (filter : list string)
    (now : Z) (m : Moods.row) : Prop :=
  Moods.email m = owner
  /\ now - N * day <= Moods.created_at m
  /\ (filter = [] \/ exists t, t ∈ default [] (Moods.triggers m) /\ t ∈ filter).

(** [t] is [piece] without the white space at its two ends. *)
Definition trimmed_of (piece t : string) : Prop :=
  exists before after,
    piece = before +:+ t +:+ after
    /\ allWhiteSpace before = true /\ allWhiteSpace after = true
    /\ startsWithWhiteSpace t = false /\ endsWithWhiteSpace t = false.

(** The pieces of a comma-delimited input: joined by commas they give the
    input back, and none contains a comma. *)
Definition comma_pieces (s : string) (pieces : list string) : Prop :=
  JS.join "," pieces = s /\ Forall (fun piece => occursIn "," piece = false) pieces.

(** The frequency claim as the specification words it, for one request:
    whatever rows and table the answer carries, the table maps every
    trigger to the number of rows that contain it. *)
Definition frequency_claim (email days triggers : option string) (p : Pool) : Prop :=
  forall rows counts,
    body (answer (history email days triggers) p).1 = History rows counts ->
    frequency_by_entries rows counts.

(** The shape claim as the specification words it, for one request:
    every object of a quote list has the members [id], [content] and
    [author]. *)
Definition quote_shape_claim (v : variant) (fetch : string -> fetched)
    (mood : option string) (p : Pool) : Prop :=
  forall answered,
    body (answer (quotes v fetch mood) p).1 = Quotes answered ->
    Forall shape_id_content_author answered.

(** ** Sample stores *)

Definition no_rows : Database := {| users := []; user1 := []; moods := [] |}.

Definition fresh_pool : Pool :=
  {| db := no_rows; NOW := 100 * day; reachable := true; issued := [] |}.

Definition at_time (t : Z) (p : Pool) : Pool :=
  {| db := db p; NOW := t; reachable := reachable p; issued := issued p |}.

(** The pool after the two saves of the specification's example, one
    microsecond apart. *)
Definition example_pool : Pool :=
  let p1 := snd (answer (save_mood VariantA (Some "a@x.com") (Some "happy")
                           (Some ["work"; "sleep"])) fresh_pool) in
  snd (answer (save_mood VariantA (Some "a@x.com") (Some "sad") (Some ["work"]))
         (at_time (100 * day + 1) p1)).

(** One entry whose trigger array names the same trigger twice. *)
Definition repeated_trigger_pool : Pool :=
  snd (answer (save_mood VariantA (Some "a@x.com") (Some "tired")
                 (Some ["work"; "work"])) fresh_pool).

(** A provider that has nothing. *)
Definition silent_provider (url : string) : fetched := Data None.

(** ** Songs *)

(** [encodeURIComponent] on code units below 256.  The unreserved
    characters (letters, digits and [- _ . ! ~ * ' ( )]) stay; any other
    character is replaced by the bytes of its UTF-8 encoding, each written
    as a percent sign and two upper-case hexadecimal digits.  Below 128
    the encoding is the code unit itself; from 128 to 255 it is the two
    bytes [192 + n / 64] and [128 + n mod 64]. *)
Definition unreserved (c : ascii) : bool :=
  let n := JS.charCode c in
  ((65 <=? n) && (n <=? 90)) || ((97 <=? n) && (n <=? 122))
  || ((48 <=? n) && (n <=? 57))
  || existsb (Ascii.eqb c) ["-"; "_"; "."; "!"; "~"; "*"; "'"; "("; ")"]%char.

Definition hexDigit (d : Z) : ascii :=
  ascii_of_N (Z.to_N (if d <? 10 then 48 + d else 55 + d)).

Definition percentByte (byte : Z) : string :=
  String "%" (String (hexDigit (byte / 16)) (String (hexDigit (byte mod 16)) EmptyString)).

Definition encodeChar (c : ascii) : string :=
  let n := JS.charCode c in
  if unreserved c then String c EmptyString
  else if n <? 128 then percentByte n
  else percentByte (192 + n / 64) +:+ percentByte (128 + n mod 64).

Fixpoint encodeURIComponent (s : string) : string :=
  match s with
  | EmptyString => EmptyString
  | String c s' => encodeChar c +:+ encodeURIComponent s'
  end.

(** Every character of the string satisfies the test. *)
Fixpoint allChars (f : ascii -> bool) (s : string) : bool :=
  match s with
  | EmptyString => true
  | String c s' => f c && allChars f s'
  end.

(** The characters [encodeURIComponent] writes. *)
Definition urlSafe (c : ascii) : bool := unreserved c || Ascii.eqb c "%".

(** An environment variable in a template literal: an unset variable is
    [undefined] and is written so. *)
Definition envText (value : option string) : string := default "undefined" value.

(** The URL the songs handler fetches.  Variant A does not read
    [pageToken]; variant B appends it as it is when it is truthy. *)
Definition songs_url (v : variant) (YOUTUBE_API_KEY : option string)
    (mood : string) (pageToken : option string) : string :=
  match v with
  | VariantA =>
      "https://www.googleapis.com/youtube/v3/search?part=snippet&type=video&q="
      +:+ encodeURIComponent (mood +:+ " music")
      +:+ "&key=" +:+ envText YOUTUBE_API_KEY +:+ "&maxResults=5"
  | VariantB =>
      let query := encodeURIComponent (mood +:+ " music") in
      let baseUrl := "https://www.googleapis.com/youtube/v3/search" in
      baseUrl +:+ "?part=snippet&type=video&q=" +:+ query
      +:+ "&maxResults=5&key=" +:+ envText YOUTUBE_API_KEY
      +:+ (if JS.truthy pageToken then "&pageToken=" +:+ or_empty pageToken else "")
  end.

Module Songs.

(** What [fetch] and [response.json()] give: an exception with its
    message, or the data, whose [error] member is kept apart when it is
    truthy. *)
Inductive fetched (D E : Type) : Type :=
| Threw (message : string)
| Json (error : option E) (data : D).
Arguments Threw {D E} message.
Arguments Json {D E} error data.

Inductive payload (D E : Type) : Type :=
| MoodRequired
| ApiError (error : E)
| FetchFailed (error : string)
| Relayed (data : D).
Arguments MoodRequired {D E}.
Arguments ApiError {D E} error.
Arguments FetchFailed {D E} error.
Arguments Relayed {D E} data.

Record Response (D E : Type) : Type := { status : Z; body : payload D E }.
Arguments status {D E} r.
Arguments body {D E} r.

End Songs.

(** [GET /api/songs]: the store is not used. *)
Definition songs {D E : Type} (v : variant) (YOUTUBE_API_KEY : option string)
    (fetch : string -> Songs.fetched D E) (mood pageToken : option string)
    : Songs.Response D E :=
  if negb (JS.truthy mood) then
    {| Songs.status := 400; Songs.body := Songs.MoodRequired |}
  else
    match fetch (songs_url v YOUTUBE_API_KEY (or_empty mood) pageToken) with
    | Songs.Threw message =>
        {| Songs.status := 500; Songs.body := Songs.FetchFailed message |}
    | Songs.Json (Some error) _ =>
        {| Songs.status := 500; Songs.body := Songs.ApiError error |}
    | Songs.Json None data =>
        {| Songs.status := 200; Songs.body := Songs.Relayed data |}
    end.

(** ** The routes that answer from the store or from a table *)

Inductive request :=
| PostSignup (email password : option string)
| PostLogin (email password : option string)
| PostMood (email mood : option string) (triggers : option (list string))
| GetHistory (email days triggers : option string)
| GetQuotes (mood : option string).

Definition serve (v : variant) (fetch : string -> fetched) (r : request)
    : Async Response :=
  match r with
  | PostSignup email password => signup v email password
  | PostLogin email password => login v email password
  | PostMood email mood triggers => save_mood v email mood triggers
  | GetHistory email days triggers => history email days triggers
  | GetQuotes mood => quotes v fetch mood
  end.

(** A trigger as a client would put it in a comma-separated filter: not
    empty, no comma, no white space at its ends. *)
Definition plain_trigger (t : string) : Prop :=
  t <> "" /\ occursIn "," t = false
  /\ startsWithWhiteSpace t = false /\ endsWithWhiteSpace t = false.

(** The character 1 written [n] times. *)
Fixpoint ones (n : nat) : string :=
  match n with
  | O => EmptyString
  | S n' => ones n' +:+ "1"
  end.

(** The table entry of an inherited name [k] written [n] times. *)
Definition glued (k : string) (n : nat) : option jsval :=
  match n with
  | O => None
  | S _ => Some (Str (JS.inheritedText k +:+ ones n))
  end.

(** The emails of a table of accounts. *)
Definition emails (accounts : list Users.row) : list string :=
  map Users.email accounts.

(** A pool with one account in [users] and in [user1]. *)
Definition registered_pool : Pool :=
  let stored := {| Users.email := "a@x.com"; Users.password := "Secret" |} in
  {| db := {| users := [stored]; user1 := [stored]; moods := [] |};
     NOW := 100 * day; reachable := true; issued := [] |}.

(** The same pool when the server does not answer. *)
Definition down (p : Pool) : Pool :=
  {| db := db p; NOW := NOW p; reachable := false; issued := issued p |}.

(** ** Reading the claims: the window and the filter *)

Definition isDecimalDigit (c : ascii) : bool :=
  (48 <=? JS.charCode c) && (JS.charCode c <=? 57).

(** The integer that a text writes in decimal notation: white space
    around it, an optional sign, then decimal digits and nothing else. *)
Definition written_integer (s : string) : option Z :=
  let t := JS.trim s in
  let '(sign, digits) :=
    match t with
    | String "-" r => (-1, r)
    | String "+" r => (1, r)
    | _ => (1, t)
    end in
  match digits with
  | EmptyString => None
  | _ =>
      if allChars isDecimalDigit digits
      then match JS.parseDigits 10 digits None with
           | Some n => Some (sign * n)
           | None => None
           end
      else None
  end.

(** The window claim as the specification words it, for one request: a
    request whose [days] does not write an integer from 1 to 365 is
    answered 400. *)
Definition window_claim (email days triggers : option string) (p : Pool) : Prop :=
  (forall N, written_integer (or_empty days) = Some N -> N < 1 \/ 365 < N) ->
  status (answer (history email days triggers) p).1 = 400.

(** No trigger restriction is applied to the history queries that carry
    the input [triggers]: for a non-empty owner, a window [N] in 1..365
    and a store that answers, the one statement handed to the store has
    no trigger clause and binds the owner alone, and the rows answered are
    those of all the stored entries of the owner that are not older than
    [N] days, whatever their triggers. *)
Definition no_trigger_restriction (triggers : option string) : Prop :=
  forall (owner : string) (days : option string) (p : Pool) (N : Z),
    owner <> "" -> JS.parseInt (or_empty days) = Some N -> 1 <= N <= 365 ->
    reachable p = true ->
    exists selected moodHistory triggerCounts,
      answer (history (Some owner) days triggers) p
        = ({| status := 200; body := History moodHistory triggerCounts |},
           {| db := db p; NOW := NOW p; reachable := true;
              issued := issued p ++
                [ (select_template N +:+ " ORDER BY created_at DESC", [Text owner]) ] |})
      /\ moodHistory ≡ₚ map select_columns selected
      /\ selected `sublist_of` moods (db p)
      /\ forall m,
           m ∈ selected <->
           m ∈ moods (db p) /\ Moods.email m = owner
           /\ NOW p - N * day <= Moods.created_at m.

(** * Theorems *)

Example parseInt_examples :
  JS.parseInt "7" = Some 7 /\ JS.parseInt "  +42px" = Some 42 /\
  JS.parseInt "-1" = Some (-1) /\ JS.parseInt "0x1F" = Some 31 /\
  JS.parseInt "abc" = None /\ JS.parseInt "0x" = None /\
  JS.parseInt "365.9" = Some 365 /\ JS.numberToString 365 = "365".
Proof. repeat split; reflexivity. Qed.

Example split_trim_examples :
  JS.split "," "a,,b" = ["a"; ""; "b"] /\ JS.split "," "" = [""] /\
  JS.trim "  work  " = "work" /\ JS.trim "   " = "" /\
  JS.toLowerCase "HaPPy" = "happy".
Proof. repeat split; reflexivity. Qed.

(** ** Presence checks *)

Lemma truthy_true (o : option string) :
  JS.truthy o = true <-> exists s, o = Some s /\ s <> "".
Proof.
  destruct o as [s|]; simpl.
  - rewrite negb_true_iff. split.
    + intros H. exists s. split; [done|]. intros ->. discriminate.
    + intros (s' & [= <-] & Hne). apply String.eqb_neq. done.
  - split; [done | intros (s & ? & _); done].
Qed.

Lemma truthy_Some (s : string) : s <> "" -> JS.truthy (Some s) = true.
Proof. intros H. apply truthy_true. eauto. Qed.

(** ** Accounts *)

Section accounts.
Variable e : string.

(** The first row of the [SELECT] is the first record with the email. *)
Lemma select_first (l : list Users.row) :
  match List.filter (fun u => String.eqb (Users.email u) e) l with
  | [] => list_find (fun u => Users.email u = e) l = None
  | u :: _ => exists i, list_find (fun u => Users.email u = e) l = Some (i, u)
  end.
Proof.
  induction l as [|u l IH]; simpl; [done|].
  destruct (String.eqb_spec (Users.email u) e) as [Heq|Hne].
  - exists 0%nat. rewrite decide_True; done.
  - rewrite decide_False by done.
    destruct (List.filter _ l) as [|u' l'].
    + rewrite IH. done.
    + destruct IH as [i ->]. eauto.
Qed.
End accounts.

(** C5. A login with non-empty email and password, against a store that
    answers, is decided by the first stored record with that email in the
    table the variant reads: 400 when there is none, 401 when its stored
    password is not the very string supplied, 200 when it is; the tables
    are left as they were. *)
Theorem login_outcome (v : variant) (email password : string) (p : Pool)
    (Hemail : email <> "") (Hpassword : password <> "")
    (Hup : reachable p = true) :
  let '(r, p') := answer (login v (Some email) (Some password)) p in
  db p' = db p /\
  status r =
    match list_find (fun u => Users.email u = email)
            (read_accounts (login_table v) (db p)) with
    | None => 400
    | Some (_, user) => if decide (Users.password user = password) then 200 else 401
    end.
Proof.
  unfold login, answer, try_catch, await, pool_query, respond, resolve.
  rewrite !truthy_Some by done. simpl. rewrite Hup. simpl.
  pose proof (select_first email (read_accounts (login_table v) (db p))) as Hsel.
  destruct (List.filter _ _) as [|user rest].
  - rewrite Hsel. done.
  - destruct Hsel as [i ->].
    destruct (String.eqb_spec (Users.password user) password) as [Heq|Hne]; simpl.
    + rewrite decide_True; done.
    + rewrite decide_False; done.
Qed.

Lemma login_outcome_witness :
  let stored := {| Users.email := "a@x.com"; Users.password := "Secret" |} in
  let p := {| db := {| users := [stored]; user1 := [stored]; moods := [] |};
              NOW := 0; reachable := true; issued := [] |} in
  status (fst (answer (login VariantB (Some "a@x.com") (Some "secret")) p)) = 401
  /\ status (fst (answer (login VariantA (Some "a@x.com") (Some "Secret")) p)) = 200
  /\ status (fst (answer (login VariantA (Some "b@x.com") (Some "Secret")) p)) = 400.
Proof.
  intros stored p.
  pose proof (login_outcome VariantB "a@x.com" "secret" p
                ltac:(discriminate) ltac:(discriminate) eq_refl) as H1.
  pose proof (login_outcome VariantA "a@x.com" "Secret" p
                ltac:(discriminate) ltac:(discriminate) eq_refl) as H2.
  pose proof (login_outcome VariantA "b@x.com" "Secret" p
                ltac:(discriminate) ltac:(discriminate) eq_refl) as H3.
  destruct (answer (login VariantB _ _) p) as [r1 p1].
  destruct (answer (login VariantA (Some "a@x.com") _) p) as [r2 p2].
  destruct (answer (login VariantA (Some "b@x.com") _) p) as [r3 p3].
  destruct H1 as [_ H1], H2 as [_ H2], H3 as [_ H3].
  repeat split; [exact H1 | exact H2 | exact H3].
Defined.

(** ** Saving a mood *)

(** C8. Saving a mood with an absent or empty email or mood is answered
    400 with the pool untouched (no statement is handed to the store,
    whether it would answer or not).  Otherwise, when the store answers,
    the answer is 201 and exactly one row is appended to [moods]: the
    email, the mood, the triggers ([[]] when the field is omitted) and the
    store's [NOW()]. *)
Theorem save_mood_outcome (v : variant) (email mood : option string)
    (triggers : option (list string)) (p : Pool) :
  let '(r, p') := answer (save_mood v email mood triggers) p in
  if JS.truthy email && JS.truthy mood then
    reachable p = true ->
    status r = 201
    /\ moods (db p') =
         moods (db p) ++
           [ {| Moods.email := or_empty email; Moods.mood := or_empty mood;
                Moods.triggers := Some (match triggers with Some l => l | None => [] end);
                Moods.created_at := NOW p |} ]
    /\ users (db p') = users (db p) /\ user1 (db p') = user1 (db p)
  else
    status r = 400 /\ p' = p.
Proof.
  unfold save_mood, answer, try_catch, await, pool_query, respond, resolve.
  destruct (JS.truthy email), (JS.truthy mood); simpl; try done.
  destruct (reachable p); simpl; [|done].
  intros _. destruct triggers; done.
Qed.

Lemma save_mood_outcome_witness :
  let r := answer (save_mood VariantB (Some "a@x.com") (Some "happy") None) fresh_pool in
  reachable fresh_pool = true
  /\ status (fst r) = 201
  /\ moods (db (snd r)) =
       [ {| Moods.email := "a@x.com"; Moods.mood := "happy";
            Moods.triggers := Some []; Moods.created_at := 100 * day |} ].
Proof.
  intros r. split; [reflexivity|].
  pose proof (save_mood_outcome VariantB (Some "a@x.com") (Some "happy") None fresh_pool) as H.
  fold r in H. destruct r as [r' p']. simpl in H.
  destruct (H eq_refl) as (Hs & Hm & _). split; [exact Hs | exact Hm].
Defined.

(** ** Signup *)

(** X1. Variant A keeps the promise of the signup contract: with non-empty
    email and password and a store that answers, an email that some record
    of [users] carries is refused with 400 whatever the password, and any
    other email is appended to [users] with its password and answered
    201. *)
Lemma signup_variantA_conflict_or_created (email password : string) (p : Pool)
    (Hemail : email <> "") (Hpassword : password <> "")
    (Hup : reachable p = true) :
  let '(r, p') := answer (signup VariantA (Some email) (Some password)) p in
  if decide (Exists (fun u => Users.email u = email) (users (db p))) then
    status r = 400 /\ db p' = db p
  else
    status r = 201
    /\ users (db p') =
         users (db p) ++ [ {| Users.email := email; Users.password := password |} ].
Proof.
  unfold signup, answer, try_catch, await, pool_query, respond, resolve.
  rewrite !truthy_Some by done. simpl. rewrite Hup. simpl.
  pose proof (select_first email (users (db p))) as Hsel.
  destruct (List.filter _ _) as [|user rest]; simpl.
  - rewrite decide_False; [done|].
    intros Hex. apply Exists_exists in Hex as (u & Hu & Heq).
    apply list_find_None in Hsel. rewrite Forall_forall in Hsel.
    apply (Hsel u); done.
  - destruct Hsel as [i Hfind]. apply list_find_Some in Hfind as (Hl & Heq & _).
    rewrite decide_True; [done|].
    apply Exists_exists. exists user. split; [|done].
    eapply list_elem_of_lookup_2. done.
Qed.

(** C4. In variant B a signup looks the email up in [users] and inserts
    into [user1], the table its login reads: registering an email a second
    time, with another password, is answered 201 again and leaves two
    records with that email in [user1]. *)
Theorem signup_variantB_registers_twice :
  let first := answer (signup VariantB (Some "a@x.com") (Some "p1")) fresh_pool in
  let second := answer (signup VariantB (Some "a@x.com") (Some "p2")) (snd first) in
  status (fst first) = 201
  /\ status (fst second) = 201
  /\ user1 (db (snd second)) =
       [ {| Users.email := "a@x.com"; Users.password := "p1" |};
         {| Users.email := "a@x.com"; Users.password := "p2" |} ]
  /\ status (fst (answer (login VariantB (Some "a@x.com") (Some "p2")) (snd second))) = 401.
Proof. vm_compute. repeat split; reflexivity. Qed.

(** ** Mood history: the checks before the statement *)

Lemma parsed_days_truthy (days : option string) (N : Z) :
  JS.parseInt (or_empty days) = Some N -> JS.truthy days = true.
Proof.
  destruct days as [s|]; [|discriminate].
  destruct s; [discriminate|done].
Qed.

(** What the handler does once the checks have passed. *)
Lemma history_accepted (email : string) (days triggers : option string)
    (p : Pool) (N : Z) :
  email <> "" -> JS.parseInt (or_empty days) = Some N -> 1 <= N <= 365 ->
  answer (history (Some email) days triggers) p =
    let handed := issued p ++ [build_query N email (triggersArray triggers)] in
    if reachable p then
      let moodHistory :=
        (select_history N email (bound_filter (triggersArray triggers))
           (db p) (NOW p)).1 in
      ({| status := 200; body := History moodHistory (count_triggers moodHistory) |},
       {| db := db p; NOW := NOW p; reachable := true; issued := handed |})
    else
      ({| status := 500; body := Message "Server error while retrieving mood history" |},
       {| db := db p; NOW := NOW p; reachable := false; issued := handed |}).
Proof.
  intros Hemail Hdays HN.
  unfold history, answer. rewrite (truthy_Some _ Hemail), (parsed_days_truthy _ _ Hdays).
  simpl. rewrite Hdays.
  destruct (Z.leb_spec N 0); [lia|]. destruct (Z.ltb_spec 365 N); [lia|]. simpl.
  unfold try_catch, await, pool_query, respond, resolve.
  destruct (build_query N email (triggersArray triggers)) as [queryText queryParams].
  destruct (reachable p); done.
Qed.

(** What the handler does when a check fails. *)
Lemma history_rejected (email days triggers : option string) (p : Pool) :
  (forall N, JS.parseInt (or_empty days) = Some N -> N < 1 \/ 365 < N) ->
  let '(r, p') := answer (history email days triggers) p in
  status r = 400 /\ p' = p.
Proof.
  intros Hout. unfold history, answer.
  destruct (negb (JS.truthy email) || negb (JS.truthy days)); [done|].
  destruct (JS.parseInt (or_empty days)) as [N|]; [|done].
  destruct (Hout N eq_refl).
  - destruct (Z.leb_spec N 0); [done|lia].
  - destruct (Z.ltb_spec 365 N); [|lia]. rewrite orb_true_r. done.
Qed.

(** C3, as the code has it.  The window of a history request is the
    integer [N] that [parseInt] reads from [days]: white space, an
    optional sign, then decimal digits (or hexadecimal digits after [0x]),
    whatever follows them.  When there is none (NaN, or [days]
    absent or empty) or [N] is outside 1..365, the answer is 400 and the
    pool is untouched: no statement reaches the store.  When
    [1 <= N <= 365] and the email is present, one statement is handed to
    the store, and the answer is 200 when the store answers. *)
Theorem days_window_checked (email days triggers : option string) (p : Pool) :
  let '(r, p') := answer (history email days triggers) p in
  match JS.parseInt (or_empty days) with
  | Some N =>
      if decide (1 <= N <= 365) then
        JS.truthy email = true ->
        (exists statement, issued p' = issued p ++ [statement])
        /\ (reachable p = true -> status r = 200)
      else status r = 400 /\ p' = p
  | None => status r = 400 /\ p' = p
  end.
Proof.
  destruct (JS.parseInt (or_empty days)) as [N|] eqn:Hdays.
  - destruct (decide (1 <= N <= 365)) as [HN|HN].
    + destruct (answer _ p) as [r p'] eqn:Hans. intros Hemail.
      apply truthy_true in Hemail as (e & -> & He).
      rewrite (history_accepted e days triggers p N He Hdays HN) in Hans.
      simpl in Hans. destruct (reachable p); simplify_eq/=; split; eauto; done.
    + apply history_rejected. intros N' HN'. rewrite Hdays in HN'. simplify_eq. lia.
  - apply history_rejected. intros N' HN'. rewrite Hdays in HN'. done.
Qed.

Lemma days_window_checked_witness :
  let ask days := (answer (history (Some "a@x.com") (Some days) None) example_pool).1 in
  status (ask "0") = 400 /\ status (ask "-1") = 400 /\ status (ask "366") = 400
  /\ status (ask "1") = 200 /\ status (ask "365") = 200.
Proof.
  intros ask.
  pose proof (days_window_checked (Some "a@x.com") (Some "0") None example_pool) as H0.
  pose proof (days_window_checked (Some "a@x.com") (Some "-1") None example_pool) as Hm.
  pose proof (days_window_checked (Some "a@x.com") (Some "366") None example_pool) as H366.
  pose proof (days_window_checked (Some "a@x.com") (Some "1") None example_pool) as H1.
  pose proof (days_window_checked (Some "a@x.com") (Some "365") None example_pool) as H365.
  unfold ask.
  destruct (answer (history _ (Some "0") _) _) as [r0 p0].
  destruct (answer (history _ (Some "-1") _) _) as [rm pm].
  destruct (answer (history _ (Some "366") _) _) as [r366 p366].
  destruct (answer (history _ (Some "1") _) _) as [r1 p1].
  destruct (answer (history _ (Some "365") _) _) as [r365 p365].
  simpl in H0, Hm, H366, H1, H365.
  repeat split;
    [ exact (proj1 H0) | exact (proj1 Hm) | exact (proj1 H366)
    | exact (proj2 (H1 eq_refl) eq_refl) | exact (proj2 (H365 eq_refl) eq_refl) ].
Defined.

(** C3, as the claim words it, fails on a [days] that does not write an
    integer: [365.9] is answered 200, with the window 365. *)
Lemma window_accepts_trailing_text :
  ~ window_claim (Some "a@x.com") (Some "365.9") None example_pool.
Proof.
  intros Hclaim.
  assert (status (answer (history (Some "a@x.com") (Some "365.9") None)
                    example_pool).1 = 400) as Hstatus.
  { apply Hclaim. intros N HN. vm_compute in HN. discriminate. }
  vm_compute in Hstatus. discriminate.
Qed.

(** Other texts that do not write an integer from 1 to 365 and are
    accepted, with the windows 1, 12 and 31. *)
Example days_read_by_prefix :
  written_integer "1e3" = None /\ JS.parseInt "1e3" = Some 1
  /\ written_integer "12abc" = None /\ JS.parseInt "12abc" = Some 12
  /\ written_integer "0x1F" = None /\ JS.parseInt "0x1F" = Some 31
  /\ written_integer " +7 " = Some 7 /\ JS.parseInt " +7 " = Some 7
  /\ status (answer (history (Some "a@x.com") (Some "1e3") None) example_pool).1 = 200.
Proof. vm_compute. repeat split; reflexivity. Qed.

(** The window is what [parseInt] reads: text after the digits is
    ignored, so such a request is accepted with the integer in front. *)
Example days_with_trailing_text :
  JS.parseInt "365.9" = Some 365
  /\ status (answer (history (Some "a@x.com") (Some "365.9") None) example_pool).1 = 200
  /\ status (answer (history (Some "a@x.com") (Some "366.9") None) example_pool).1 = 400.
Proof. vm_compute. repeat split; reflexivity. Qed.

(** ** Mood history: the text of the statement *)

(** The numbers 1..365 are written with one to three decimal digits, and
    the digits read back as the number. *)
Lemma window_written_in_digits (k : Z) :
  1 <= k <= 365 ->
  shortDecimal (JS.numberToString k) = true
  /\ JS.parseInt (JS.numberToString k) = Some k.
Proof.
  intros Hk.
  assert (forallb (fun k => shortDecimal (JS.numberToString k)
                            && bool_decide (JS.parseInt (JS.numberToString k) = Some k))
            (seqZ 1 365) = true) as Hall by (vm_compute; reflexivity).
  rewrite forallb_forall in Hall.
  specialize (Hall k). rewrite andb_true_iff, bool_decide_eq_true in Hall.
  apply Hall, list_elem_of_In, elem_of_seqZ. lia.
Qed.

(** C10. When the history handler hands a statement to the store, the
    number interpolated into its text is the [k] that [parseInt] read from
    [days], with [1 <= k <= 365]: it is written with one to three decimal
    digits that read back as [k], so the interval is [INTERVAL 'k days'].
    Apart from these digits the text is fixed, up to the presence of the
    trigger clause, and it is the only statement of the request. *)
Theorem interval_text_is_checked_number (email days triggers : option string)
    (p : Pool) :
  let '(r, p') := answer (history email days triggers) p in
  issued p' <> issued p ->
  one_statement_with_checked_interval days (issued p) (issued p').
Proof.
  destruct (answer _ p) as [r p'] eqn:Hans. intros Hsent.
  pose proof (history_rejected email days triggers p) as Hrej. rewrite Hans in Hrej.
  destruct (JS.parseInt (or_empty days)) as [k|] eqn:Hdays.
  2:{ assert (p' = p) as -> by (apply Hrej; intros; simplify_eq). congruence. }
  destruct (decide (1 <= k <= 365)) as [Hk|Hk].
  2:{ assert (p' = p) as -> by (apply Hrej; intros; simplify_eq; lia). congruence. }
  clear Hrej.
  destruct (JS.truthy email) eqn:Hemail.
  2:{ unfold history, answer in Hans. rewrite Hemail in Hans.
      simpl in Hans. simplify_eq. }
  apply truthy_true in Hemail as (e & -> & He).
  rewrite (history_accepted e days triggers p k He Hdays Hk) in Hans.
  destruct (window_written_in_digits k Hk) as [Hdigits Hback].
  exists k, (0 <? Z.of_nat (length (triggersArray triggers))).
  exists (build_query k e (triggersArray triggers)).2.
  split; [done|]. split; [done|]. split; [done|]. split; [done|].
  assert (issued p' = issued p ++ [build_query k e (triggersArray triggers)]) as ->.
  { simpl in Hans. destruct (reachable p); simplify_eq/=; done. }
  unfold build_query, select_template.
  destruct (0 <? Z.of_nat (length (triggersArray triggers))); reflexivity.
Qed.

Lemma interval_text_is_checked_number_witness :
  let p' := (answer (history (Some "a@x.com") (Some " 30 days") (Some "work")) example_pool).2 in
  issued p' <> issued example_pool
  /\ one_statement_with_checked_interval (Some " 30 days") (issued example_pool) (issued p').
Proof.
  intros p'.
  assert (issued p' <> issued example_pool) as Hne by (vm_compute; discriminate).
  split; [exact Hne|].
  pose proof (interval_text_is_checked_number (Some "a@x.com") (Some " 30 days")
                (Some "work") example_pool) as H.
  subst p'.
  destruct (answer (history (Some "a@x.com") (Some " 30 days") (Some "work")) example_pool)
    as [r q].
  exact (H Hne).
Defined.

(** ** Strings *)

Lemma append_cons (c : ascii) (s t : string) :
  String c s +:+ t = String c (s +:+ t).
Proof. reflexivity. Qed.

Lemma append_empty_l (s : string) : "" +:+ s = s.
Proof. reflexivity. Qed.

Lemma append_empty_r (s : string) : s +:+ "" = s.
Proof. induction s as [|c s IH]; [done|]. rewrite append_cons, IH. done. Qed.

Lemma append_assoc (s t u : string) : (s +:+ t) +:+ u = s +:+ (t +:+ u).
Proof. induction s as [|c s IH]; [done|]. rewrite !append_cons, IH. done. Qed.

(** ** Mood history: the rows returned *)

Lemma overlap_spec (a b : list string) :
  overlap a b = true <-> exists t, t ∈ a /\ t ∈ b.
Proof.
  unfold overlap. rewrite existsb_exists. split.
  - intros (t & Ha & Hb). apply existsb_exists in Hb as (t' & Hb & Heq).
    apply String.eqb_eq in Heq as <-. exists t. rewrite !list_elem_of_In. done.
  - intros (t & Ha & Hb). exists t. rewrite <- list_elem_of_In. split; [done|].
    apply existsb_exists. exists t. rewrite <- list_elem_of_In, String.eqb_eq. done.
Qed.

Lemma bound_filter_spec (l : list string) :
  bound_filter l = match l with [] => None | _ => Some l end.
Proof. destruct l; reflexivity. Qed.

(** The [WHERE] clause selects the entries that match the query. *)
Lemma history_where_spec (N : Z) (owner : string) (filter : list string)
    (now : Z) (m : Moods.row) :
  history_where N owner (bound_filter filter) now m = true
  <-> matches_query owner N filter now m.
Proof.
  unfold history_where, matches_query.
  rewrite !andb_true_iff, String.eqb_eq, Z.leb_le, bound_filter_spec.
  destruct filter as [|t0 filter].
  - split; [intros [[? ?] _]; eauto | intros (? & ? & _); done].
  - destruct (Moods.triggers m) as [ts|]; simpl.
    + rewrite overlap_spec. split.
      * intros [[? ?] ?]. eauto.
      * intros (? & ? & [?|?]); done.
    + split; [intros [_ ?]; done|].
      intros (_ & _ & [?|(t & Ht & _)]); [done|]. by apply elem_of_nil in Ht.
Qed.

Lemma filter_sublist {A} (f : A -> bool) (l : list A) :
  List.filter f l `sublist_of` l.
Proof.
  induction l as [|x l IH]; simpl; [done|].
  destruct (f x); [by apply sublist_skip | by apply sublist_cons].
Qed.

Lemma created_at_desc_trans : Transitive created_at_desc.
Proof. unfold created_at_desc. intros a b c ? ?. lia. Qed.

Lemma created_at_desc_total : Total created_at_desc.
Proof. unfold created_at_desc. intros a b. lia. Qed.

(** C1. A history query with a non-empty owner and a window [N] in
    1..365, against a store that answers, returns (as rows of mood,
    triggers and timestamp, in some order) a selection of the stored
    entries, and an entry is selected if and only if it is stored, its
    owner is the queried email, its timestamp is at least [NOW() - N]
    days, and either the parsed filter is empty or one of its triggers is
    one of the filter's. *)
Theorem history_returns_matching (owner : string) (days triggers : option string)
    (p : Pool) (N : Z)
    (Howner : owner <> "") (Hdays : JS.parseInt (or_empty days) = Some N)
    (HN : 1 <= N <= 365) (Hup : reachable p = true) :
  exists selected moodHistory triggerCounts,
    (answer (history (Some owner) days triggers) p).1
      = {| status := 200; body := History moodHistory triggerCounts |}
    /\ moodHistory ≡ₚ map select_columns selected
    /\ selected `sublist_of` moods (db p)
    /\ forall m,
         m ∈ selected <->
         m ∈ moods (db p)
         /\ matches_query owner N (triggersArray triggers) (NOW p) m.
Proof.
  rewrite (history_accepted owner days triggers p N Howner Hdays HN), Hup. simpl.
  eexists (List.filter _ (moods (db p))), _, _.
  split; [reflexivity|]. split; [apply merge_sort_Permutation|].
  split; [apply filter_sublist|].
  intros m. rewrite list_elem_of_In, filter_In, <- list_elem_of_In, history_where_spec.
  done.
Qed.

Lemma history_returns_matching_witness :
  exists selected moodHistory triggerCounts,
    (answer (history (Some "a@x.com") (Some "7") (Some "sleep, gym")) example_pool).1
      = {| status := 200; body := History moodHistory triggerCounts |}
    /\ moodHistory ≡ₚ map select_columns selected
    /\ selected `sublist_of` moods (db example_pool)
    /\ forall m,
         m ∈ selected <->
         m ∈ moods (db example_pool)
         /\ matches_query "a@x.com" 7 ["sleep"; "gym"] (NOW example_pool) m.
Proof.
  exact (history_returns_matching "a@x.com" (Some "7") (Some "sleep, gym") example_pool 7
           ltac:(discriminate) eq_refl ltac:(lia) eq_refl).
Defined.

(** C6. The rows of a history answer are in descending order of
    [created_at]: every row is at least as recent as every row after it.
    Each row is made of the mood, the triggers and the timestamp of a
    stored entry; a row has no other member, so the owner email is not in
    the answer: the one statement of the request selects the columns
    [mood], [triggers] and [created_at]. *)
Theorem history_newest_first (owner : string) (days triggers : option string)
    (p : Pool) (N : Z)
    (Howner : owner <> "") (Hdays : JS.parseInt (or_empty days) = Some N)
    (HN : 1 <= N <= 365) (Hup : reachable p = true) :
  exists moodHistory triggerCounts,
    (answer (history (Some owner) days triggers) p).1
      = {| status := 200; body := History moodHistory triggerCounts |}
    /\ StronglySorted (fun a b => Entry.created_at b <= Entry.created_at a) moodHistory
    /\ Forall (fun entry =>
                 exists m, m ∈ moods (db p)
                   /\ entry = {| Entry.mood := Moods.mood m;
                                 Entry.triggers := Moods.triggers m;
                                 Entry.created_at := Moods.created_at m |})
         moodHistory
    /\ exists rest queryParams,
         issued (answer (history (Some owner) days triggers) p).2
         = issued p ++
             [ (newline +:+ "      SELECT mood, triggers, created_at"
                +:+ newline +:+ "      FROM moods" +:+ rest, queryParams) ].
Proof.
  rewrite (history_accepted owner days triggers p N Howner Hdays HN), Hup.
  unfold select_history. cbn [fst snd issued].
  eexists _, _. split; [reflexivity|]. split; [|split].
  - apply (@StronglySorted_merge_sort _ created_at_desc _
             created_at_desc_trans created_at_desc_total).
  - apply Forall_forall. intros entry Hentry.
    rewrite merge_sort_Permutation in Hentry.
    apply list_elem_of_In, in_map_iff in Hentry as (m & <- & Hm).
    apply filter_In in Hm as [Hm _]. exists m. rewrite list_elem_of_In. done.
  - unfold build_query, select_template.
    destruct (0 <? Z.of_nat (length (triggersArray triggers)));
      rewrite !append_assoc; eexists _, _; reflexivity.
Qed.

Lemma history_newest_first_witness :
  exists moodHistory triggerCounts,
    (answer (history (Some "a@x.com") (Some "7") None) example_pool).1
      = {| status := 200; body := History moodHistory triggerCounts |}
    /\ StronglySorted (fun a b => Entry.created_at b <= Entry.created_at a) moodHistory
    /\ Forall (fun entry =>
                 exists m, m ∈ moods (db example_pool)
                   /\ entry = {| Entry.mood := Moods.mood m;
                                 Entry.triggers := Moods.triggers m;
                                 Entry.created_at := Moods.created_at m |})
         moodHistory
    /\ exists rest queryParams,
         issued (answer (history (Some "a@x.com") (Some "7") None) example_pool).2
         = issued example_pool ++
             [ (newline +:+ "      SELECT mood, triggers, created_at"
                +:+ newline +:+ "      FROM moods" +:+ rest, queryParams) ].
Proof.
  exact (history_newest_first "a@x.com" (Some "7") None example_pool 7
           ltac:(discriminate) eq_refl ltac:(lia) eq_refl).
Defined.

(** The example of the specification: two entries, newest first. *)
Example history_example :
  (answer (history (Some "a@x.com") (Some "7") None) example_pool).1
  = {| status := 200;
       body := History
         [ {| Entry.mood := "sad"; Entry.triggers := Some ["work"];
              Entry.created_at := 100 * day + 1 |};
           {| Entry.mood := "happy"; Entry.triggers := Some ["work"; "sleep"];
              Entry.created_at := 100 * day |} ]
         (<["work" := Num 2]> (<["sleep" := Num 1]> ∅)) |}.
Proof. vm_compute. reflexivity. Qed.

(** ** Mood history: parsing the trigger filter *)

(** Joining the pieces of [split] with the separator gives the string
    back. *)
Lemma join_split (sep : ascii) (s : string) : JS.join sep (JS.split sep s) = s.
Proof.
  induction s as [|c s IH]; simpl; [done|].
  destruct (Ascii.eqb_spec c sep) as [->|Hne].
  - destruct (JS.split sep s) as [|piece pieces] eqn:Hsplit.
    + destruct s; simpl in Hsplit; [done|].
      destruct (Ascii.eqb _ _); [done|]. destruct (JS.split sep s); done.
    + change (JS.join sep ("" :: piece :: pieces))
        with ("" +:+ String sep (JS.join sep (piece :: pieces))).
      rewrite IH. done.
  - destruct (JS.split sep s) as [|piece pieces] eqn:Hsplit.
    + destruct s; simpl in Hsplit; [done|].
      destruct (Ascii.eqb _ _); [done|]. destruct (JS.split sep s); done.
    + destruct pieces as [|piece' pieces]; simpl in *.
      * rewrite IH. done.
      * rewrite append_cons, IH. done.
Qed.

(** No piece of [split] contains the separator. *)
Lemma split_pieces_without_separator (sep : ascii) (s : string) :
  Forall (fun piece => occursIn sep piece = false) (JS.split sep s).
Proof.
  induction s as [|c s IH]; simpl; [by constructor|].
  destruct (Ascii.eqb_spec c sep) as [->|Hne].
  - constructor; done.
  - destruct (JS.split sep s) as [|piece pieces].
    + constructor; [|done]. simpl. apply Ascii.eqb_neq in Hne. rewrite Hne. done.
    + inversion IH as [|? ? Hpiece Hpieces]; subst. constructor; [|done].
      simpl. apply Ascii.eqb_neq in Hne. rewrite Hne. done.
Qed.

Lemma trimStart_spec (s : string) :
  exists before,
    s = before +:+ JS.trimStart s
    /\ allWhiteSpace before = true
    /\ startsWithWhiteSpace (JS.trimStart s) = false.
Proof.
  induction s as [|c s (before & Hs & Hbefore & Hstart)]; simpl.
  - exists "". done.
  - destruct (JS.isWhiteSpace c) eqn:Hc.
    + exists (String c before). rewrite append_cons, <- Hs. simpl. rewrite Hc. done.
    + exists "". simpl. done.
Qed.

Lemma trimEnd_spec (s : string) :
  exists after,
    s = JS.trimEnd s +:+ after
    /\ allWhiteSpace after = true
    /\ endsWithWhiteSpace (JS.trimEnd s) = false
    /\ startsWithWhiteSpace (JS.trimEnd s) = startsWithWhiteSpace s && negb (allWhiteSpace s).
Proof.
  induction s as [|c s (after & Hs & Hafter & Hend & Hstart)]; simpl.
  - exists "". done.
  - destruct (JS.trimEnd s) as [|d t] eqn:Htrim.
    + rewrite append_empty_l in Hs. subst after.
      destruct (JS.isWhiteSpace c) eqn:Hc.
      * exists (String c s). simpl. rewrite Hc, Hafter. done.
      * exists s. simpl. rewrite Hc. done.
    + exists after. rewrite append_cons, <- Hs. simpl.
      split; [done|]. split; [done|]. split; [done|].
      destruct (JS.isWhiteSpace c); [|done]. simpl.
      destruct (allWhiteSpace s) eqn:Hall; [|done].
      exfalso. clear -Htrim Hall.
      revert d t Htrim. induction s as [|c' s IH]; intros d t Htrim; [done|].
      simpl in *. apply andb_true_iff in Hall as [Hc' Hall].
      destruct (JS.trimEnd s) as [|d' t'].
      * rewrite Hc' in Htrim. done.
      * eapply IH; done.
Qed.

(** [trim] removes the white space at the two ends and nothing else. *)
Lemma trim_spec (s : string) : trimmed_of s (JS.trim s).
Proof.
  unfold trimmed_of, JS.trim.
  destruct (trimStart_spec s) as (before & Hs & Hbefore & Hstart).
  destruct (trimEnd_spec (JS.trimStart s)) as (after & Hu & Hafter & Hend & Hstart').
  exists before, after. rewrite <- Hu, <- Hs.
  split; [done|]. split; [done|]. split; [done|]. split; [|done].
  rewrite Hstart', Hstart. done.
Qed.

(** An empty filter puts no trigger restriction on the query. *)
Lemma empty_filter_no_restriction (triggers : option string) :
  triggersArray triggers = [] -> no_trigger_restriction triggers.
Proof.
  intros Hempty owner days p N Howner Hdays HN Hup.
  rewrite (history_accepted owner days triggers p N Howner Hdays HN), Hup, Hempty.
  unfold build_query, bound_filter, select_history. cbn [length Z.of_nat Z.ltb Z.compare fst snd].
  exists (List.filter (history_where N owner None (NOW p)) (moods (db p))).
  eexists _, _. split; [reflexivity|]. split; [apply merge_sort_Permutation|].
  split; [apply filter_sublist|].
  intros m. rewrite list_elem_of_In, filter_In, <- list_elem_of_In.
  unfold history_where. rewrite !andb_true_iff, String.eqb_eq, Z.leb_le. tauto.
Qed.

(** C7. The filter of a history request.  An absent or empty input gives
    the empty filter, and no trigger restriction is applied.  Any other
    input is cut at its commas (the pieces, joined by commas, are the
    input, and no piece has a comma), each piece loses the white space at
    its two ends, and the pieces that are then empty are dropped, the
    others staying in order.  So every element of the filter is non-empty
    and has no white space at its ends.  Whenever the filter is empty (no
    piece is left), no trigger restriction is applied: the statement has
    no trigger clause and binds the owner alone, the rows are those of all
    the owner's entries in the window, whatever their triggers, and the
    request is answered exactly as the same request without a [triggers]
    input. *)
Theorem trigger_filter_parsed (triggers : option string) :
  match triggers with
  | None => triggersArray triggers = [] /\ no_trigger_restriction triggers
  | Some s =>
      if decide (s = "")
      then triggersArray triggers = [] /\ no_trigger_restriction triggers
      else
        exists pieces trimmed,
          comma_pieces s pieces
          /\ Forall2 trimmed_of pieces trimmed
          /\ triggersArray triggers = filter (fun t => t <> "") trimmed
  end
  /\ Forall (fun t => t <> "" /\ startsWithWhiteSpace t = false
                      /\ endsWithWhiteSpace t = false)
       (triggersArray triggers)
  /\ (triggersArray triggers = [] ->
      no_trigger_restriction triggers
      /\ forall email days p,
           answer (history email days triggers) p = answer (history email days None) p).
Proof.
  assert (forall l, List.filter (fun t => 0 <? Z.of_nat (String.length t)) l
                    = filter (fun t => t <> "") l) as Hfilter.
  { induction l as [|t l IH]; simpl; [done|].
    rewrite filter_cons, IH. case_decide; destruct t; done. }
  split; [|split].
  - destruct triggers as [s|]; [|split; [done|by apply empty_filter_no_restriction]].
    destruct (decide (s = "")) as [->|Hs];
      [split; [done|by apply empty_filter_no_restriction]|].
    exists (JS.split "," s), (map JS.trim (JS.split "," s)).
    split; [split; [apply join_split | apply split_pieces_without_separator]|].
    split.
    + apply Forall2_fmap_r, Forall_Forall2_diag, Forall_forall.
      intros piece _. apply trim_spec.
    + unfold triggersArray. rewrite truthy_Some by done. apply Hfilter.
  - unfold triggersArray. destruct (JS.truthy triggers); [|by constructor].
    rewrite Hfilter. apply Forall_forall. intros t Ht.
    apply list_elem_of_filter in Ht as [Hne Ht]. split; [done|].
    apply list_elem_of_In, in_map_iff in Ht as (piece & <- & _).
    destruct (trim_spec piece) as (_ & _ & _ & _ & _ & ? & ?). done.
  - intros Hempty. split; [by apply empty_filter_no_restriction|].
    intros email days p. unfold history. rewrite Hempty. reflexivity.
Qed.

Lemma trigger_filter_parsed_witness :
  triggersArray (Some " , ,") = []
  /\ (exists selected moodHistory triggerCounts,
        answer (history (Some "a@x.com") (Some "7") (Some " , ,")) example_pool
          = ({| status := 200; body := History moodHistory triggerCounts |},
             {| db := db example_pool; NOW := NOW example_pool; reachable := true;
                issued := issued example_pool ++
                  [ (select_template 7 +:+ " ORDER BY created_at DESC",
                     [Text "a@x.com"]) ] |})
        /\ moodHistory ≡ₚ map select_columns selected
        /\ selected `sublist_of` moods (db example_pool)
        /\ forall m,
             m ∈ selected <->
             m ∈ moods (db example_pool) /\ Moods.email m = "a@x.com"
             /\ NOW example_pool - 7 * day <= Moods.created_at m)
  /\ answer (history (Some "a@x.com") (Some "7") (Some " , ,")) example_pool
     = answer (history (Some "a@x.com") (Some "7") None) example_pool.
Proof.
  split; [reflexivity|].
  destruct (proj2 (proj2 (trigger_filter_parsed (Some " , ,"))) eq_refl)
    as [Hnone Hsame].
  split.
  - exact (Hnone "a@x.com" (Some "7") example_pool 7
             ltac:(discriminate) eq_refl ltac:(lia) eq_refl).
  - exact (Hsame (Some "a@x.com") (Some "7") example_pool).
Defined.

(** Without a filter both entries of the example come back, also the
    one whose triggers a filter would not name. *)
Example absent_filter_returns_all :
  exists counts,
    body (answer (history (Some "a@x.com") (Some "7") None) example_pool).1
    = History
        [ {| Entry.mood := "sad"; Entry.triggers := Some ["work"];
             Entry.created_at := 100 * day + 1 |};
          {| Entry.mood := "happy"; Entry.triggers := Some ["work"; "sleep"];
             Entry.created_at := 100 * day |} ]
        counts.
Proof. eexists. vm_compute. reflexivity. Qed.

Example trigger_filter_example :
  triggersArray (Some " work , ,sleep,") = ["work"; "sleep"].
Proof. reflexivity. Qed.

(** ** Mood history: the frequency table *)

Section frequency.
Variable T : string.
Hypothesis not_inherited : T ∉ JS.ObjectPrototype.

Lemma tally_succ (n : Z) : 0 <= n -> tally (n + 1) = Some (Num (n + 1)).
Proof. intros Hn. unfold tally. destruct (Z.eqb_spec (n + 1) 0); [lia|done]. Qed.

Lemma not_proto : T <> "__proto__".
Proof. intros ->. apply not_inherited. set_solver. Qed.

(** One step of the inner loop, seen at a key that is not inherited. *)
Lemma count_trigger_lookup (c : gmap string jsval) (t : string) (n : Z) :
  0 <= n -> c !! T = tally n ->
  count_trigger c t !! T = tally (n + hits T [t]).
Proof.
  intros Hn Hc. unfold count_trigger, set, hits.
  rewrite filter_cons, filter_nil.
  destruct (decide (T = t)) as [<-|Hne]; simpl.
  - destruct (String.eqb_spec T "__proto__") as [Heq|_]; [by apply not_proto in Heq|].
    rewrite lookup_insert_eq, tally_succ by done. f_equal.
    unfold get. rewrite Hc. unfold tally.
    destruct (Z.eqb_spec n 0) as [->|Hn0]; [|done].
    unfold JS.inherited. rewrite bool_decide_eq_false_2; done.
  - rewrite Z.add_0_r.
    destruct (String.eqb t "__proto__"); [done|].
    rewrite lookup_insert_ne; done.
Qed.

Lemma hits_nonneg (ts : list string) : 0 <= hits T ts.
Proof. unfold hits. lia. Qed.

Lemma hits_app (l1 l2 : list string) : hits T (l1 ++ l2) = hits T l1 + hits T l2.
Proof. unfold hits. rewrite filter_app, length_app. lia. Qed.

Lemma count_entry_lookup (ts : list string) (c : gmap string jsval) (n : Z) :
  0 <= n -> c !! T = tally n ->
  foldl count_trigger c ts !! T = tally (n + hits T ts).
Proof.
  revert c n. induction ts as [|t ts IH]; intros c n Hn Hc; simpl.
  - unfold hits. simpl. rewrite Z.add_0_r. done.
  - change (t :: ts) with ([t] ++ ts). rewrite hits_app, Z.add_assoc.
    apply IH; [pose proof (hits_nonneg [t]); lia|].
    apply count_trigger_lookup; done.
Qed.

Lemma count_entries_lookup (rows : list Entry.row) (c : gmap string jsval) (n : Z) :
  0 <= n -> c !! T = tally n ->
  foldl count_entry c rows !! T = tally (n + occurrences T rows).
Proof.
  revert c n. induction rows as [|entry rows IH]; intros c n Hn Hc; simpl.
  - unfold occurrences. simpl. rewrite Z.add_0_r. done.
  - replace (occurrences T (entry :: rows))
      with (hits T (entry_triggers entry) + occurrences T rows).
    2:{ unfold occurrences, hits. simpl. rewrite filter_app, length_app. lia. }
    rewrite Z.add_assoc.
    apply IH; [pose proof (hits_nonneg (entry_triggers entry)); lia|].
    apply count_entry_lookup; done.
Qed.

(** A number for every trigger that is not the name of an inherited
    member: how many times the rows write it. *)
Lemma count_triggers_lookup (rows : list Entry.row) :
  count_triggers rows !! T = tally (occurrences T rows).
Proof.
  unfold count_triggers.
  rewrite (count_entries_lookup rows ∅ 0); [done|lia|done].
Qed.

Lemma hits_NoDup (ts : list string) :
  NoDup ts -> hits T ts = if decide (T ∈ ts) then 1 else 0.
Proof.
  unfold hits. induction 1 as [|t ts Hnotin Hnodup IH]; [done|].
  rewrite filter_cons. destruct (decide (T = t)) as [<-|Hne]; simpl.
  - rewrite decide_True by set_solver.
    rewrite decide_False in IH by done. lia.
  - rewrite IH. destruct (decide (T ∈ ts)).
    + rewrite decide_True by set_solver. done.
    + rewrite decide_False; [done|]. rewrite elem_of_cons. tauto.
Qed.

(** When no row repeats a trigger, a trigger is written as many times
    as there are rows that contain it. *)
Lemma occurrences_NoDup (rows : list Entry.row) :
  Forall (fun entry => NoDup (entry_triggers entry)) rows ->
  occurrences T rows = entries_containing T rows.
Proof.
  induction 1 as [|entry rows Hentry Hrows IH].
  - done.
  - replace (occurrences T (entry :: rows))
      with (hits T (entry_triggers entry) + occurrences T rows).
    2:{ unfold occurrences, hits. simpl. rewrite filter_app, length_app. lia. }
    rewrite IH, (hits_NoDup _ Hentry). unfold entries_containing.
    rewrite filter_cons. destruct (decide (T ∈ entry_triggers entry)); simpl; lia.
Qed.
End frequency.

(** The keys of the table are triggers of the rows. *)
Lemma count_trigger_key (c : gmap string jsval) (t k : string) :
  is_Some (count_trigger c t !! k) -> is_Some (c !! k) \/ k = t.
Proof.
  unfold count_trigger, set. destruct (String.eqb t "__proto__"); [by left|].
  destruct (decide (t = k)) as [->|Hne]; [by right|].
  rewrite lookup_insert_ne by done. by left.
Qed.

Lemma count_entry_key (ts : list string) (c : gmap string jsval) (k : string) :
  is_Some (foldl count_trigger c ts !! k) -> is_Some (c !! k) \/ k ∈ ts.
Proof.
  revert c. induction ts as [|t ts IH]; intros c Hk; simpl in *; [by left|].
  destruct (IH _ Hk) as [Hc|Hin]; [|right; set_solver].
  destruct (count_trigger_key _ _ _ Hc) as [?| ->]; [by left|right; set_solver].
Qed.

Lemma count_entries_key (rows : list Entry.row) (c : gmap string jsval) (k : string) :
  is_Some (foldl count_entry c rows !! k) ->
  is_Some (c !! k) \/ exists entry, entry ∈ rows /\ k ∈ entry_triggers entry.
Proof.
  revert c. induction rows as [|entry rows IH]; intros c Hk; simpl in *; [by left|].
  destruct (IH _ Hk) as [Hc|(entry' & Hin & Hk')].
  - destruct (count_entry_key _ _ _ Hc) as [?|?]; [by left|].
    right. exists entry. set_solver.
  - right. exists entry'. set_solver.
Qed.

(** C2, as the code has it.  For a history query with a non-empty owner
    and a window in 1..365, against a store that answers, the answer is
    200 with the rows and the table computed from these rows alone.  For
    every trigger [T] that is not the name of a member inherited from
    [Object.prototype], the table has no key [T] when no row writes [T],
    and otherwise maps [T] to the number of times the rows write [T]; that
    number is the number of rows containing [T] when no row repeats a
    trigger.  Every key of the table is a trigger of some row.  When no
    stored entry matches, the rows and the table are empty and the answer
    is still 200. *)
Theorem frequency_table_counts (owner : string) (days triggers : option string)
    (p : Pool) (N : Z)
    (Howner : owner <> "") (Hdays : JS.parseInt (or_empty days) = Some N)
    (HN : 1 <= N <= 365) (Hup : reachable p = true) :
  exists moodHistory triggerCounts,
    (answer (history (Some owner) days triggers) p).1
      = {| status := 200; body := History moodHistory triggerCounts |}
    /\ triggerCounts = count_triggers moodHistory
    /\ (forall T, T ∉ JS.ObjectPrototype ->
          triggerCounts !! T = tally (occurrences T moodHistory)
          /\ (Forall (fun entry => NoDup (entry_triggers entry)) moodHistory ->
              triggerCounts !! T = tally (entries_containing T moodHistory)))
    /\ (forall k, is_Some (triggerCounts !! k) ->
          exists entry, entry ∈ moodHistory /\ k ∈ entry_triggers entry)
    /\ ((forall m, m ∈ moods (db p) ->
           ~ matches_query owner N (triggersArray triggers) (NOW p) m) ->
        moodHistory = [] /\ triggerCounts = ∅).
Proof.
  rewrite (history_accepted owner days triggers p N Howner Hdays HN), Hup. simpl.
  eexists _, _. split; [reflexivity|]. split; [reflexivity|].
  split; [|split].
  - intros T HT. split.
    + apply count_triggers_lookup. done.
    + intros Hnodup. rewrite count_triggers_lookup, occurrences_NoDup; done.
  - intros k Hk. apply count_entries_key in Hk as [Hk|Hk]; [|done].
    rewrite lookup_empty in Hk. by destruct Hk.
  - intros Hnone.
    assert (List.filter
              (history_where N owner (bound_filter (triggersArray triggers)) (NOW p))
              (moods (db p)) = []) as ->.
    { destruct (List.filter _ _) as [|m l] eqn:Hfilter; [done|].
      assert (In m (m :: l)) as Hin by (left; done).
      rewrite <- Hfilter in Hin. apply filter_In in Hin as [Hin Hm].
      apply history_where_spec in Hm. apply list_elem_of_In in Hin.
      destruct (Hnone m Hin Hm). }
    done.
Qed.

Lemma frequency_table_counts_witness :
  exists moodHistory triggerCounts,
    (answer (history (Some "a@x.com") (Some "7") (Some "sleep")) example_pool).1
      = {| status := 200; body := History moodHistory triggerCounts |}
    /\ triggerCounts = count_triggers moodHistory
    /\ (forall T, T ∉ JS.ObjectPrototype ->
          triggerCounts !! T = tally (occurrences T moodHistory)
          /\ (Forall (fun entry => NoDup (entry_triggers entry)) moodHistory ->
              triggerCounts !! T = tally (entries_containing T moodHistory)))
    /\ (forall k, is_Some (triggerCounts !! k) ->
          exists entry, entry ∈ moodHistory /\ k ∈ entry_triggers entry)
    /\ ((forall m, m ∈ moods (db example_pool) ->
           ~ matches_query "a@x.com" 7 ["sleep"] (NOW example_pool) m) ->
        moodHistory = [] /\ triggerCounts = ∅).
Proof.
  exact (frequency_table_counts "a@x.com" (Some "7") (Some "sleep") example_pool 7
           ltac:(discriminate) eq_refl ltac:(lia) eq_refl).
Defined.

(** C2, as the claim words it, fails on an entry that names a trigger
    twice: the entry saved with the triggers [work, work] is the only row
    of the answer, and the table says 2 for [work]. *)
Lemma frequency_counts_repeats :
  ~ frequency_claim (Some "a@x.com") (Some "7") None repeated_trigger_pool.
Proof.
  intros Hclaim.
  pose proof (Hclaim _ _ eq_refl "work") as Hwork.
  vm_compute in Hwork. discriminate.
Qed.

(** The filter narrows the counts of the other triggers (the second
    example of the specification). *)
Example frequency_example :
  body (answer (history (Some "a@x.com") (Some "7") (Some "sleep")) example_pool).1
  = History
      [ {| Entry.mood := "happy"; Entry.triggers := Some ["work"; "sleep"];
           Entry.created_at := 100 * day |} ]
      (<["work" := Num 1]> (<["sleep" := Num 1]> ∅)).
Proof. vm_compute. reflexivity. Qed.

(** A trigger that is the name of an inherited member is not counted:
    [constructor] gets a text, [__proto__] gets no key. *)
Example frequency_of_inherited_names :
  count_triggers
    [ {| Entry.mood := "sad"; Entry.triggers := Some ["constructor"; "__proto__"];
         Entry.created_at := 0 |} ]
  = <["constructor" := Str "function Object() { [native code] }1"]> ∅.
Proof. vm_compute. reflexivity. Qed.

(** ** Quotes *)

Section literals.
Context {A : Type}.
Implicit Types (o : list (string * A)) (k : string).

(** Reading a member that the literal writes (once). *)
Lemma get_literal_own o k (a : A) :
  NoDup o.*1 -> (k, a) ∈ o -> get_literal o k = JS.Own a.
Proof.
  induction o as [|[k' a'] o IH]; intros Hnodup Hin; [by apply elem_of_nil in Hin|].
  simpl in *. apply NoDup_cons in Hnodup as [Hk' Hnodup].
  apply elem_of_cons in Hin as [[= <- <-]|Hin].
  - rewrite String.eqb_refl. done.
  - destruct (String.eqb_spec k' k) as [->|_]; [|by apply IH].
    destruct Hk'. apply list_elem_of_fmap. exists (k, a). done.
Qed.

(** Reading a member that the literal does not write. *)
Lemma get_literal_other o k :
  k ∉ o.*1 ->
  get_literal o k = if JS.inherited k then JS.Inherited k else JS.Undefined.
Proof.
  induction o as [|[k' a'] o IH]; intros Hnotin; simpl in *; [done|].
  apply not_elem_of_cons in Hnotin as [Hne Hnotin].
  destruct (String.eqb_spec k' k) as [->|_]; [done|by apply IH].
Qed.
End literals.

Lemma not_inherited_false (k : string) :
  k ∉ JS.ObjectPrototype -> JS.inherited k = false.
Proof. intros Hk. unfold JS.inherited. by rewrite bool_decide_eq_false_2. Qed.

Lemma staticQuotes_keys : NoDup staticQuotes.*1.
Proof. apply (bool_decide_unpack _). vm_compute. exact I. Qed.

Lemma moodKeywords_keys : NoDup moodKeywords.*1.
Proof. apply (bool_decide_unpack _). vm_compute. exact I. Qed.

Lemma staticQuotes_entries :
  Forall (fun entry => length entry.2 = 6%nat /\ Forall shape_underscore_id entry.2)
    staticQuotes.
Proof. repeat (constructor; [split; [reflexivity | repeat constructor]|]). constructor. Qed.

Lemma moodKeywords_values :
  Forall (fun entry => entry.2 <> "") moodKeywords.
Proof. repeat (constructor; [discriminate|]). constructor. Qed.

(** The handler on a mood that is present. *)
Lemma quotes_present (v : variant) (fetch : string -> fetched) (m : string) (p : Pool) :
  m <> "" ->
  answer (quotes v fetch (Some m)) p =
    (match v with
     | VariantA =>
         match fetch (quotes_url m) with
         | Failed => {| status := 500; body := Message "Failed to fetch quotes" |}
         | Data None => {| status := 404; body := Message "No quotes found" |}
         | Data (Some []) => {| status := 404; body := Message "No quotes found" |}
         | Data (Some results) => {| status := 200; body := Quotes results |}
         end
     | VariantB =>
         match get_literal staticQuotes (JS.toLowerCase m) with
         | JS.Own answered => {| status := 200; body := Quotes answered |}
         | JS.Inherited k => {| status := 200; body := Prototype k |}
         | JS.Undefined => {| status := 200; body := Quotes [] |}
         end
     end, p).
Proof.
  intros Hm. unfold quotes. rewrite (truthy_Some _ Hm).
  cbn [negb or_empty from_option id]. unfold answer, respond, resolve.
  destruct v.
  - destruct (fetch (quotes_url m)) as [|[[|q results]|]]; reflexivity.
  - destruct (get_literal staticQuotes (JS.toLowerCase m)); reflexivity.
Qed.

(** C9, as the code has it.  The quotes handler leaves the store alone.
    An absent or empty mood is answered 400.  Otherwise the mood is
    lower-cased and looked up in the variant's table.
    Variant B always answers 200: with the six objects of the table's
    entry, each with the members [_id], [content] and [author], when the
    lower-cased mood is a key of the static table; with the empty list
    when it is neither a key nor the name of a member inherited from
    [Object.prototype].
    Variant A asks the provider for the keyword of the table's entry, or
    for [motivational] when the lower-cased mood is neither a key nor an
    inherited name; it answers 404 when the provider's data has no
    results or an empty list of them, 200 with the provider's list as it
    is otherwise, and 500 when the provider fails. *)
Theorem quotes_outcome (v : variant) (fetch : string -> fetched)
    (mood : option string) (p : Pool) :
  let '(r, p') := answer (quotes v fetch mood) p in
  p' = p
  /\ match mood with
     | None => status r = 400
     | Some m =>
         if decide (m = "") then status r = 400
         else
           match v with
           | VariantB =>
               status r = 200
               /\ (forall answered, (JS.toLowerCase m, answered) ∈ staticQuotes ->
                     body r = Quotes answered /\ length answered = 6%nat
                     /\ Forall shape_underscore_id answered)
               /\ (JS.toLowerCase m ∉ staticQuotes.*1 ->
                   JS.toLowerCase m ∉ JS.ObjectPrototype ->
                   body r = Quotes [])
           | VariantA =>
               (forall word, (JS.toLowerCase m, word) ∈ moodKeywords ->
                  quotes_url m
                  = "https://api.quotable.io/quotes?tags=" +:+ word +:+ "&limit=3")
               /\ (JS.toLowerCase m ∉ moodKeywords.*1 ->
                   JS.toLowerCase m ∉ JS.ObjectPrototype ->
                   quotes_url m
                   = "https://api.quotable.io/quotes?tags=" +:+ "motivational" +:+ "&limit=3")
               /\ match fetch (quotes_url m) with
                  | Failed => status r = 500
                  | Data None => status r = 404
                  | Data (Some []) => status r = 404
                  | Data (Some results) => status r = 200 /\ body r = Quotes results
                  end
           end
     end.
Proof.
  destruct mood as [m|]; [|done].
  destruct (decide (m = "")) as [->|Hm]; [done|].
  rewrite (quotes_present v fetch m p Hm).
  destruct v.
  - destruct (fetch (quotes_url m)) as [|[[|q results]|]] eqn:Hfetch;
      (split; [done|]); (split; [|split; [|done]]).
    all: try (intros word Hword; unfold quotes_url, keyword;
              rewrite (get_literal_own _ _ _ moodKeywords_keys Hword);
              pose proof moodKeywords_values as Hvalues;
              rewrite Forall_forall in Hvalues;
              apply Hvalues, String.eqb_neq in Hword; simpl in Hword;
              rewrite Hword; done).
    all: intros Hkey Hproto; unfold quotes_url, keyword;
         rewrite (get_literal_other moodKeywords _ Hkey), (not_inherited_false _ Hproto);
         done.
  - destruct (get_literal staticQuotes (JS.toLowerCase m)) as [answered|k|] eqn:Hget;
      (split; [done|]); (split; [done|]); split.
    all: try (intros answered' Hin;
              rewrite (get_literal_own _ _ _ staticQuotes_keys Hin) in Hget;
              simplify_eq;
              pose proof staticQuotes_entries as Hentries;
              rewrite Forall_forall in Hentries;
              destruct (Hentries _ Hin); done).
    all: intros Hkey Hproto;
         rewrite (get_literal_other staticQuotes _ Hkey), (not_inherited_false _ Hproto)
           in Hget;
         done.
Qed.

Lemma quotes_outcome_witness :
  let happy := (answer (quotes VariantB silent_provider (Some "HAPPY")) fresh_pool).1 in
  let bored := (answer (quotes VariantB silent_provider (Some "bored")) fresh_pool).1 in
  (exists answered,
     body happy = Quotes answered /\ length answered = 6%nat
     /\ Forall shape_underscore_id answered)
  /\ status bored = 200 /\ body bored = Quotes [].
Proof.
  intros happy bored.
  pose proof (quotes_outcome VariantB silent_provider (Some "HAPPY") fresh_pool) as Hhappy.
  pose proof (quotes_outcome VariantB silent_provider (Some "bored") fresh_pool) as Hbored.
  subst happy bored.
  destruct (answer (quotes VariantB silent_provider (Some "HAPPY")) fresh_pool) as [r1 p1].
  destruct (answer (quotes VariantB silent_provider (Some "bored")) fresh_pool) as [r2 p2].
  simpl in Hhappy, Hbored.
  destruct Hhappy as (_ & _ & Hknown & _). destruct Hbored as (_ & Hstatus & _ & Hunknown).
  split; [|split; [exact Hstatus|]].
  - eexists. apply Hknown. apply list_elem_of_In. left. reflexivity.
  - apply Hunknown; apply (bool_decide_unpack _); vm_compute; exact I.
Defined.

(** C9, as the claim words it, fails on the static table of variant B:
    the objects answered for [happy] have the member [_id], not [id]. *)
Lemma quotes_have_underscore_id :
  ~ quote_shape_claim VariantB silent_provider (Some "happy") fresh_pool.
Proof.
  intros Hclaim. pose proof (Hclaim _ eq_refl) as Hshape.
  apply Forall_inv in Hshape. vm_compute in Hshape. discriminate.
Qed.

(** Two moods that differ in case only get the same answer. *)
Lemma quotes_case_insensitive (v : variant) (fetch : string -> fetched)
    (m1 m2 : string) (p : Pool) :
  m1 <> "" -> m2 <> "" -> JS.toLowerCase m1 = JS.toLowerCase m2 ->
  answer (quotes v fetch (Some m1)) p = answer (quotes v fetch (Some m2)) p.
Proof.
  intros H1 H2 Hlower. unfold quotes, quotes_url, keyword.
  rewrite !truthy_Some by done. simpl. rewrite Hlower. done.
Qed.

(** In variant B a mood that is the name of an inherited member is
    answered with that member, not with a list. *)
Example quotes_of_inherited_name :
  (answer (quotes VariantB silent_provider (Some "Constructor")) fresh_pool).1
  = {| status := 200; body := Prototype "constructor" |}.
Proof. reflexivity. Qed.

(** * More of the handlers *)

(** ** Accounts: what a request with credentials does *)

Lemma select_none_iff (e : string) (l : list Users.row) :
  List.filter (fun u => String.eqb (Users.email u) e) l = [] <-> e ∉ emails l.
Proof.
  unfold emails. induction l as [|u l IH]; simpl.
  - split; [intros _; apply not_elem_of_nil | done].
  - destruct (String.eqb_spec (Users.email u) e) as [->|Hne].
    + split; [done|]. intros Hnot. destruct Hnot. left.
    + rewrite IH, not_elem_of_cons.
      split; [intros ?; split; [by intros ->|done] | by intros [_ ?]].
Qed.

(** The signup handler on credentials that are present. *)
Lemma signup_present (v : variant) (email password : string) (p : Pool) :
  email <> "" -> password <> "" ->
  answer (signup v (Some email) (Some password)) p =
    let look :=
      ("SELECT * FROM " +:+ table_name (signup_lookup_table v) +:+ " WHERE email = $1",
       [Text email]) in
    let add :=
      ("INSERT INTO " +:+ table_name (signup_insert_table v)
         +:+ " (email, password) VALUES ($1, $2)",
       [Text email; Text password]) in
    if reachable p then
      if decide (email ∈ emails (read_accounts (signup_lookup_table v) (db p))) then
        ({| status := 400; body := Message "User already exists" |},
         {| db := db p; NOW := NOW p; reachable := true; issued := issued p ++ [look] |})
      else
        ({| status := 201; body := Message "User registered successfully" |},
         {| db := (insert_account (signup_insert_table v) email password (db p) (NOW p)).2;
            NOW := NOW p; reachable := true;
            issued := (issued p ++ [look]) ++ [add] |})
    else
      ({| status := 500; body := Message "Server error" |},
       {| db := db p; NOW := NOW p; reachable := false; issued := issued p ++ [look] |}).
Proof.
  intros Hemail Hpassword.
  unfold signup, answer, try_catch, await, pool_query, respond, resolve.
  rewrite !truthy_Some by done.
  cbn [negb orb or_empty from_option id].
  destruct (reachable p); [|reflexivity].
  cbn [select_account fst snd db NOW reachable issued].
  pose proof (select_none_iff email (read_accounts (signup_lookup_table v) (db p))) as Hnone.
  destruct (List.filter _ _) as [|u l].
  - rewrite decide_False by (apply Hnone; done). reflexivity.
  - rewrite decide_True; [reflexivity|].
    destruct (decide (email ∈ emails (read_accounts (signup_lookup_table v) (db p))));
      [done|]. apply Hnone in n. done.
Qed.

(** The login handler on credentials that are present. *)
Lemma login_present (v : variant) (email password : string) (p : Pool) :
  email <> "" -> password <> "" ->
  answer (login v (Some email) (Some password)) p =
    let look :=
      ("SELECT * FROM " +:+ table_name (login_table v) +:+ " WHERE email = $1",
       [Text email]) in
    let handed := issued p ++ [look] in
    if reachable p then
      (match List.filter (fun u => String.eqb (Users.email u) email)
               (read_accounts (login_table v) (db p)) with
       | [] => {| status := 400; body := Message "User not found. Please sign up first." |}
       | user :: _ =>
           if String.eqb (Users.password user) password
           then {| status := 200; body := Message "Login successful" |}
           else {| status := 401; body := Message "Incorrect password" |}
       end,
       {| db := db p; NOW := NOW p; reachable := true; issued := handed |})
    else
      ({| status := 500; body := Message "Server error" |},
       {| db := db p; NOW := NOW p; reachable := false; issued := handed |}).
Proof.
  intros Hemail Hpassword.
  unfold login, answer, try_catch, await, pool_query, respond, resolve.
  rewrite !truthy_Some by done.
  cbn [negb orb or_empty from_option id].
  destruct (reachable p); [|reflexivity].
  cbn [select_account fst snd db NOW reachable issued].
  destruct (List.filter _ _) as [|u l]; [reflexivity|].
  destruct (String.eqb (Users.password u) password); reflexivity.
Qed.

(** X2. Signup and login without credentials: when the email or the
    password is absent or empty, both handlers answer 400 with the message
    [Email and password required] and leave the pool as it was; no
    statement is handed to the store, whether it answers or not. *)
Theorem credentials_required (v : variant) (email password : option string) (p : Pool)
    (Hmissing : JS.truthy email && JS.truthy password = false) :
  answer (signup v email password) p
    = ({| status := 400; body := Message "Email and password required" |}, p)
  /\ answer (login v email password) p
    = ({| status := 400; body := Message "Email and password required" |}, p).
Proof.
  unfold signup, login.
  assert (negb (JS.truthy email) || negb (JS.truthy password) = true) as ->.
  { destruct (JS.truthy email), (JS.truthy password); done. }
  done.
Qed.

Lemma credentials_required_witness :
  answer (signup VariantB (Some "a@x.com") (Some "")) (down registered_pool)
    = ({| status := 400; body := Message "Email and password required" |},
       down registered_pool)
  /\ answer (login VariantB (Some "a@x.com") (Some "")) (down registered_pool)
    = ({| status := 400; body := Message "Email and password required" |},
       down registered_pool).
Proof.
  exact (credentials_required VariantB (Some "a@x.com") (Some "")
           (down registered_pool) eq_refl).
Defined.

Lemma signup_variantA_conflict_or_created_witness :
  let taken := answer (signup VariantA (Some "a@x.com") (Some "other")) registered_pool in
  let free := answer (signup VariantA (Some "b@x.com") (Some "Secret")) registered_pool in
  (status taken.1 = 400 /\ db taken.2 = db registered_pool)
  /\ status free.1 = 201
  /\ users (db free.2) =
       [ {| Users.email := "a@x.com"; Users.password := "Secret" |};
         {| Users.email := "b@x.com"; Users.password := "Secret" |} ].
Proof.
  intros taken free.
  pose proof (signup_variantA_conflict_or_created "a@x.com" "other" registered_pool
                ltac:(discriminate) ltac:(discriminate) eq_refl) as Htaken.
  pose proof (signup_variantA_conflict_or_created "b@x.com" "Secret" registered_pool
                ltac:(discriminate) ltac:(discriminate) eq_refl) as Hfree.
  fold taken in Htaken. fold free in Hfree.
  destruct taken as [r1 p1], free as [r2 p2].
  rewrite decide_True in Htaken by (apply Exists_cons_hd; reflexivity).
  rewrite decide_False in Hfree.
  2:{ intros Hex. apply Exists_cons in Hex as [Hex|Hex]; [discriminate|].
      by apply Exists_nil in Hex. }
  split; [exact Htaken | exact Hfree].
Defined.

(** X4. Signup followed by login.  For an email that no record of the
    tables the variant reads carries yet, and a store that answers, the
    signup is answered 201; a login with the same email and password on
    the pool it leaves is then answered 200, and a login with the same
    email and any other non-empty password is answered 401. *)
Theorem signup_then_login (v : variant) (email password : string) (p : Pool)
    (Hemail : email <> "") (Hpassword : password <> "")
    (Hup : reachable p = true)
    (Hfree : email ∉ emails (read_accounts (signup_lookup_table v) (db p)))
    (Hnew : email ∉ emails (read_accounts (login_table v) (db p))) :
  let registered := answer (signup v (Some email) (Some password)) p in
  status registered.1 = 201
  /\ status (answer (login v (Some email) (Some password)) registered.2).1 = 200
  /\ forall other, other <> "" -> other <> password ->
       status (answer (login v (Some email) (Some other)) registered.2).1 = 401.
Proof.
  intros registered. subst registered.
  rewrite (signup_present v email password p Hemail Hpassword), Hup.
  cbn zeta. rewrite decide_False by done. cbn [fst snd].
  split; [done|].
  assert (forall other, other <> "" ->
            status (answer (login v (Some email) (Some other))
                      {| db := (insert_account (signup_insert_table v) email password
                                  (db p) (NOW p)).2;
                         NOW := NOW p; reachable := true;
                         issued := (issued p ++
                            [("SELECT * FROM " +:+ table_name (signup_lookup_table v)
                                +:+ " WHERE email = $1", [Text email])]) ++
                            [("INSERT INTO " +:+ table_name (signup_insert_table v)
                                +:+ " (email, password) VALUES ($1, $2)",
                              [Text email; Text password])] |}).1
            = if String.eqb password other then 200 else 401) as Hlogin.
  { intros other Hother. rewrite (login_present v email other _ Hemail Hother).
    cbn [reachable db fst snd].
    assert (List.filter (fun u => String.eqb (Users.email u) email)
              (read_accounts (login_table v)
                 (insert_account (signup_insert_table v) email password (db p) (NOW p)).2)
            = [ {| Users.email := email; Users.password := password |} ]) as ->.
    { apply select_none_iff in Hnew.
      destruct v; cbn [insert_account read_accounts login_table signup_insert_table
                       snd users user1];
        rewrite List.filter_app; cbn [login_table read_accounts] in Hnew; rewrite Hnew;
        cbn [List.filter Users.email]; rewrite String.eqb_refl; reflexivity. }
    cbn [Users.password]. destruct (String.eqb password other); reflexivity. }
  split.
  - rewrite Hlogin by done. rewrite String.eqb_refl. done.
  - intros other Hother Hdiff. rewrite Hlogin by done.
    apply String.eqb_neq in Hdiff. rewrite String.eqb_sym, Hdiff. done.
Qed.

Lemma signup_then_login_witness :
  let registered := answer (signup VariantB (Some "b@x.com") (Some "pw")) registered_pool in
  status registered.1 = 201
  /\ status (answer (login VariantB (Some "b@x.com") (Some "pw")) registered.2).1 = 200
  /\ forall other, other <> "" -> other <> "pw" ->
       status (answer (login VariantB (Some "b@x.com") (Some other)) registered.2).1 = 401.
Proof.
  apply (signup_then_login VariantB "b@x.com" "pw" registered_pool);
    [discriminate | discriminate | reflexivity | | ];
    apply (bool_decide_unpack _); vm_compute; exact I.
Defined.

(** ** What no request does to the store *)

Ltac run_handler :=
  unfold serve, signup, login, save_mood, history, quotes, answer, try_catch,
    await, pool_query, respond, resolve;
  repeat (case_match; cbn [fst snd db NOW reachable issued users user1 moods
                            select_account insert_account insert_mood select_history] in *;
          simplify_eq).

(** X5. The store is append-only.  Whatever the request, every table
    after it starts with the table before it: no handler deletes or
    rewrites a stored row.  The clock and the reachability are left alone,
    at most two statements are handed to the store, and the statements
    handed before stay in the log.  Login, history and quotes leave all
    tables as they were; signup leaves [moods] alone, and saving a mood
    leaves the account tables alone. *)
Theorem store_is_append_only (v : variant) (fetch : string -> fetched)
    (r : request) (p : Pool) :
  let p' := (answer (serve v fetch r) p).2 in
  users (db p) `prefix_of` users (db p')
  /\ user1 (db p) `prefix_of` user1 (db p')
  /\ moods (db p) `prefix_of` moods (db p')
  /\ NOW p' = NOW p /\ reachable p' = reachable p
  /\ issued p `prefix_of` issued p'
  /\ (length (issued p') <= length (issued p) + 2)%nat
  /\ match r with
     | PostSignup _ _ => moods (db p') = moods (db p)
     | PostMood _ _ _ => users (db p') = users (db p) /\ user1 (db p') = user1 (db p)
     | _ => db p' = db p
     end.
Proof.
  destruct r, v; run_handler;
    repeat split;
    cbn [fst snd db NOW reachable issued users user1 moods];
    rewrite ?length_app; cbn [length];
    try done; try lia;
    try (by apply prefix_app_r);
    try (by apply prefix_app_r, prefix_app_r).
Qed.

(** X6. A store that does not answer.  Whatever the request, the tables
    are left as they were; and a request that hands anything to the store
    is answered 500 after a single attempted statement. *)
Theorem store_down_answers_500 (v : variant) (fetch : string -> fetched)
    (r : request) (p : Pool) (Hdown : reachable p = false) :
  let '(a, p') := answer (serve v fetch r) p in
  db p' = db p
  /\ (issued p' <> issued p ->
      status a = 500 /\ exists statement, issued p' = issued p ++ [statement]).
Proof.
  destruct r, v; run_handler; (split; [done|]);
    cbn [fst snd db NOW reachable issued status]; intros Hsent;
    try done; split; eauto.
Qed.

Lemma store_down_answers_500_witness :
  let '(a, p') :=
    answer (serve VariantA silent_provider (PostLogin (Some "a@x.com") (Some "Secret")))
      (down registered_pool) in
  issued p' <> issued (down registered_pool) /\ status a = 500
  /\ db p' = db registered_pool.
Proof.
  pose proof (store_down_answers_500 VariantA silent_provider
                (PostLogin (Some "a@x.com") (Some "Secret"))
                (down registered_pool) eq_refl) as H.
  destruct (answer _ (down registered_pool)) as [a p'] eqn:Hanswer.
  assert (issued p' <> issued (down registered_pool)) as Hsent.
  { vm_compute in Hanswer. injection Hanswer as _ <-. discriminate. }
  destruct H as [Hdb Hstatus]. destruct (Hstatus Hsent) as [H500 _].
  split; [exact Hsent|]. split; [exact H500 | exact Hdb].
Defined.

(** ** Mood history: how requests compose *)

(** The save handler on fields that are present. *)
Lemma save_mood_present (v : variant) (email mood : string)
    (triggers : option (list string)) (p : Pool) :
  email <> "" -> mood <> "" -> reachable p = true ->
  (answer (save_mood v (Some email) (Some mood) triggers) p).2 =
    {| db := (insert_mood email mood (or_no_triggers triggers) (db p) (NOW p)).2;
       NOW := NOW p; reachable := true;
       issued := issued p ++
         [ ("INSERT INTO moods (email, mood, triggers, created_at) VALUES ($1, $2, $3, NOW())",
            [Text email; Text mood; TextArray (or_no_triggers triggers)]) ] |}.
Proof.
  intros Hemail Hmood Hup.
  unfold save_mood, answer, try_catch, await, pool_query, respond, resolve.
  rewrite !truthy_Some by done. cbn [negb orb or_empty from_option id].
  rewrite Hup. reflexivity.
Qed.

(** X7. A saved mood is in the owner's history.  After a save with
    non-empty email and mood on a store that answers, a history query of
    that email, asked while the save is not older than the window (the
    clock reads [t] with [t - N days <= ] the time of the save), returns a
    row with the saved mood, the saved triggers and the time of the save,
    provided the filter is empty or names one of the saved triggers. *)
Theorem saved_mood_is_in_history (v : variant) (email mood : string)
    (saved_triggers : option (list string)) (days triggers : option string)
    (p : Pool) (N t : Z)
    (Hemail : email <> "") (Hmood : mood <> "") (Hup : reachable p = true)
    (Hdays : JS.parseInt (or_empty days) = Some N) (HN : 1 <= N <= 365)
    (Hrecent : t - N * day <= NOW p)
    (Hfilter : triggersArray triggers = []
               \/ exists x, x ∈ or_no_triggers saved_triggers
                            /\ x ∈ triggersArray triggers) :
  let saved := (answer (save_mood v (Some email) (Some mood) saved_triggers) p).2 in
  exists moodHistory triggerCounts,
    (answer (history (Some email) days triggers) (at_time t saved)).1
      = {| status := 200; body := History moodHistory triggerCounts |}
    /\ {| Entry.mood := mood; Entry.triggers := Some (or_no_triggers saved_triggers);
          Entry.created_at := NOW p |} ∈ moodHistory.
Proof.
  intros saved. subst saved.
  rewrite (save_mood_present v email mood saved_triggers p Hemail Hmood Hup).
  rewrite (history_accepted email days triggers _ N Hemail Hdays HN).
  unfold at_time, select_history. cbn [reachable db NOW fst snd insert_mood moods].
  eexists _, _. split; [reflexivity|].
  rewrite merge_sort_Permutation. apply list_elem_of_In, in_map_iff.
  eexists. split; [|apply filter_In; split; [apply in_or_app; right; left; reflexivity|]].
  - reflexivity.
  - apply history_where_spec. unfold matches_query. cbn.
    split; [done|]. split; [done|]. done.
Qed.

Lemma saved_mood_is_in_history_witness :
  let saved := (answer (save_mood VariantA (Some "a@x.com") (Some "calm")
                          (Some ["gym"; "sleep"])) fresh_pool).2 in
  exists moodHistory triggerCounts,
    (answer (history (Some "a@x.com") (Some "2") (Some "sleep"))
       (at_time (101 * day) saved)).1
      = {| status := 200; body := History moodHistory triggerCounts |}
    /\ {| Entry.mood := "calm"; Entry.triggers := Some ["gym"; "sleep"];
          Entry.created_at := 100 * day |} ∈ moodHistory.
Proof.
  apply (saved_mood_is_in_history VariantA "a@x.com" "calm" (Some ["gym"; "sleep"])
           (Some "2") (Some "sleep") fresh_pool 2 (101 * day));
    [discriminate | discriminate | reflexivity | reflexivity | lia | vm_compute; discriminate |].
  right. exists "sleep". split; [right; left | left].
Defined.

Lemma filter_sublist_impl {A} (f g : A -> bool) (l : list A) :
  (forall x, f x = true -> g x = true) ->
  List.filter f l `sublist_of` List.filter g l.
Proof.
  intros Himpl. induction l as [|x l IH]; simpl; [done|].
  destruct (f x) eqn:Hf.
  - rewrite (Himpl x Hf). by apply sublist_skip.
  - destruct (g x); [by apply sublist_cons | done].
Qed.

Lemma map_sublist {A B} (f : A -> B) (l k : list A) :
  l `sublist_of` k -> map f l `sublist_of` map f k.
Proof.
  induction 1; simpl; [done | by apply sublist_skip | by apply sublist_cons].
Qed.

(** X8. Widening a history query only adds rows.  For one owner and one
    store that answers, a query with a window [N] and a filter returns a
    sub-multiset of the rows of a query with a window [N' >= N] and a
    filter that is empty or contains all the triggers of the first filter
    (itself not empty). *)
Theorem history_widens (owner : string) (days days' triggers triggers' : option string)
    (p : Pool) (N N' : Z)
    (Howner : owner <> "")
    (Hdays : JS.parseInt (or_empty days) = Some N)
    (Hdays' : JS.parseInt (or_empty days') = Some N')
    (HN : 1 <= N) (Hwider : N <= N') (HN' : N' <= 365)
    (Hup : reachable p = true)
    (Hfilter : triggersArray triggers' = []
               \/ (triggersArray triggers <> []
                   /\ triggersArray triggers ⊆ triggersArray triggers')) :
  exists rows counts rows' counts',
    (answer (history (Some owner) days triggers) p).1
      = {| status := 200; body := History rows counts |}
    /\ (answer (history (Some owner) days' triggers') p).1
      = {| status := 200; body := History rows' counts' |}
    /\ rows ⊆+ rows'.
Proof.
  rewrite (history_accepted owner days triggers p N Howner Hdays) by lia.
  rewrite (history_accepted owner days' triggers' p N' Howner Hdays') by lia.
  rewrite Hup. unfold select_history. cbn [fst snd].
  eexists _, _, _, _. split; [reflexivity|]. split; [reflexivity|].
  rewrite !merge_sort_Permutation.
  apply sublist_submseteq, map_sublist, filter_sublist_impl.
  intros m. rewrite !history_where_spec. unfold matches_query.
  intros (Hm & Htime & Hmatch). split; [done|].
  split; [unfold day in *; nia|].
  destruct Hfilter as [Hempty|[Hnonempty Hsub]]; [by left|].
  right. destruct Hmatch as [Hnone|(x & Hx & Hin)]; [done|].
  exists x. split; [done|]. apply Hsub. done.
Qed.

Lemma history_widens_witness :
  exists rows counts rows' counts',
    (answer (history (Some "a@x.com") (Some "7") (Some "sleep")) example_pool).1
      = {| status := 200; body := History rows counts |}
    /\ (answer (history (Some "a@x.com") (Some "30") (Some "sleep,work")) example_pool).1
      = {| status := 200; body := History rows' counts' |}
    /\ rows ⊆+ rows'.
Proof.
  apply (history_widens "a@x.com" (Some "7") (Some "30") (Some "sleep") (Some "sleep,work")
           example_pool 7 30);
    [discriminate | reflexivity | reflexivity | lia | lia | lia | reflexivity |].
  right. split; [vm_compute; discriminate|].
  intros x Hx. apply list_elem_of_singleton in Hx as ->. left.
Defined.

(** The answer of the history handler depends on the pool only through
    the clock, the reachability and the entries its statement selects. *)
Lemma history_answer_depends (email days triggers : option string) (p q : Pool) :
  NOW q = NOW p -> reachable q = reachable p ->
  (forall N f,
     List.filter (history_where N (or_empty email) f (NOW p)) (moods (db q))
     = List.filter (history_where N (or_empty email) f (NOW p)) (moods (db p))) ->
  (answer (history email days triggers) q).1 = (answer (history email days triggers) p).1.
Proof.
  intros Hnow Hup Hrows.
  unfold history, answer, try_catch, await, pool_query, respond, resolve, select_history.
  destruct (negb (JS.truthy email) || negb (JS.truthy days)); [done|].
  destruct (JS.parseInt (or_empty days)) as [N|]; [|done].
  destruct ((N <=? 0) || (365 <? N)); [done|].
  destruct (build_query _ _ _) as [queryText queryParams].
  rewrite Hup. destruct (reachable p); [|done].
  cbn [fst snd db NOW]. rewrite Hnow, Hrows. done.
Qed.

(** X9. Owners do not see each other's entries.  Saving a mood under one
    email, whatever the rest of the request and whether or not the store
    answers, does not change the answer (status, rows and frequency table)
    to a history query of a different email. *)
Theorem history_ignores_other_owners (v : variant) (email other mood : option string)
    (saved_triggers : option (list string)) (days triggers : option string) (p : Pool)
    (Hother : other <> email) :
  (answer (history email days triggers)
     (answer (save_mood v other mood saved_triggers) p).2).1
  = (answer (history email days triggers) p).1.
Proof.
  apply history_answer_depends.
  - unfold save_mood, answer, try_catch, await, pool_query, respond, resolve.
    repeat case_match; simplify_eq; done.
  - unfold save_mood, answer, try_catch, await, pool_query, respond, resolve.
    repeat case_match; simplify_eq; done.
  - intros N f.
    unfold save_mood, answer, try_catch, await, pool_query, respond, resolve.
    destruct (negb (JS.truthy other) || negb (JS.truthy mood)) eqn:Hpresent; [done|].
    destruct (reachable p); [|done].
    cbn [insert_mood fst snd db moods].
    rewrite List.filter_app. cbn [List.filter].
    assert (String.eqb (or_empty other) (or_empty email) = false) as Hne.
    { apply String.eqb_neq. intros Heq.
      apply orb_false_iff in Hpresent as [Ho _]. apply negb_false_iff in Ho.
      apply truthy_true in Ho as (o & -> & Ho). cbn in Heq.
      destruct email as [e|]; cbn in Heq; [|done]. by subst. }
    unfold history_where at 2. cbn [Moods.email]. rewrite Hne.
    cbn [andb]. apply app_nil_r.
Qed.

Lemma history_ignores_other_owners_witness :
  (answer (history (Some "a@x.com") (Some "7") None)
     (answer (save_mood VariantA (Some "b@x.com") (Some "sad") (Some ["work"]))
        example_pool).2).1
  = (answer (history (Some "a@x.com") (Some "7") None) example_pool).1.
Proof.
  exact (history_ignores_other_owners VariantA (Some "a@x.com") (Some "b@x.com")
           (Some "sad") (Some ["work"]) (Some "7") None example_pool
           ltac:(discriminate)).
Defined.

(** X10. The history handler reads the [moods] table, the clock and the
    reachability, and nothing else: two pools that agree on these get the
    same answer, whatever their account tables and whatever was handed to
    the store before.  In particular a signup, a login or another history
    query in between does not change the answer. *)
Theorem history_reads_only_moods (email days triggers : option string) (p q : Pool)
    (Hmoods : moods (db q) = moods (db p)) (Hnow : NOW q = NOW p)
    (Hup : reachable q = reachable p) :
  (answer (history email days triggers) q).1 = (answer (history email days triggers) p).1.
Proof.
  apply history_answer_depends; [done|done|]. intros N f. rewrite Hmoods. done.
Qed.

Lemma history_reads_only_moods_witness :
  let q := (answer (signup VariantA (Some "b@x.com") (Some "pw")) example_pool).2 in
  (answer (history (Some "a@x.com") (Some "7") None) q).1
  = (answer (history (Some "a@x.com") (Some "7") None) example_pool).1.
Proof.
  intros q.
  exact (history_reads_only_moods (Some "a@x.com") (Some "7") None example_pool q
           eq_refl eq_refl eq_refl).
Defined.

(** ** Mood history: a filter written by a client *)

Lemma split_without_separator (sep : ascii) (s : string) :
  occursIn sep s = false -> JS.split sep s = [s].
Proof.
  induction s as [|c s IH]; simpl; [done|].
  intros Hs. apply orb_false_iff in Hs as [Hc Hs]. rewrite Hc, (IH Hs). done.
Qed.

Lemma split_at_separator (sep : ascii) (a b : string) :
  occursIn sep a = false ->
  JS.split sep (a +:+ String sep b) = a :: JS.split sep b.
Proof.
  induction a as [|c a IH]; intros Ha.
  - rewrite append_empty_l. simpl. rewrite Ascii.eqb_refl. done.
  - simpl in Ha. apply orb_false_iff in Ha as [Hc Ha].
    rewrite append_cons. simpl. rewrite Hc, (IH Ha). done.
Qed.

(** Splitting what [join] wrote gives the list back. *)
Lemma split_join (sep : ascii) (l : list string) :
  l <> [] -> Forall (fun piece => occursIn sep piece = false) l ->
  JS.split sep (JS.join sep l) = l.
Proof.
  induction l as [|piece l IH]; intros Hne Hl; [done|].
  apply Forall_cons in Hl as [Hpiece Hl].
  destruct l as [|piece' l].
  - simpl. by apply split_without_separator.
  - change (JS.join sep (piece :: piece' :: l))
      with (piece +:+ String sep (JS.join sep (piece' :: l))).
    rewrite split_at_separator by done. rewrite IH; done.
Qed.

Lemma trimStart_id (s : string) : startsWithWhiteSpace s = false -> JS.trimStart s = s.
Proof. destruct s as [|c s]; simpl; [done|]. intros ->. done. Qed.

Lemma trimEnd_id (s : string) : endsWithWhiteSpace s = false -> JS.trimEnd s = s.
Proof.
  induction s as [|c s IH]; simpl; [done|].
  destruct s as [|d s].
  - simpl. intros ->. done.
  - intros Hs. rewrite (IH Hs). done.
Qed.

Lemma trim_id (s : string) :
  startsWithWhiteSpace s = false -> endsWithWhiteSpace s = false -> JS.trim s = s.
Proof. intros Hstart Hend. unfold JS.trim. rewrite (trimStart_id _ Hstart). by apply trimEnd_id. Qed.

Lemma join_not_empty (sep : ascii) (l : list string) :
  l <> [] -> Forall (fun t => t <> "") l -> JS.join sep l <> "".
Proof.
  destruct l as [|t l]; [done|]. intros _ Hl.
  apply Forall_cons in Hl as [Ht _].
  destruct t as [|c t]; [done|]. destruct l; simpl; [done|].
  rewrite append_cons. done.
Qed.

(** X11. A filter written by a client is read back as it is.  For a list
    of triggers that are not empty, have no comma and no white space at
    their ends, joining the list with commas and sending it as the
    [triggers] parameter makes the handler's filter exactly that list, in
    order. *)
Theorem joined_filter_is_read_back (l : list string) (Hplain : Forall plain_trigger l) :
  triggersArray (Some (JS.join "," l)) = l.
Proof.
  destruct (decide (l = [])) as [->|Hne]; [done|].
  unfold triggersArray.
  rewrite truthy_Some.
  2:{ apply join_not_empty; [done|]. eapply Forall_impl; [exact Hplain|].
      intros t Ht. apply Ht. }
  cbn [or_empty from_option id].
  rewrite split_join; [|done|].
  2:{ eapply Forall_impl; [exact Hplain|]. intros t Ht. apply Ht. }
  clear Hne. induction Hplain as [|t l (Ht & _ & Hstart & Hend) _ IH]; [done|].
  cbn [map List.filter]. rewrite !(trim_id _ Hstart Hend).
  destruct t as [|c t]; [done|].
  assert ((0 <? Z.of_nat (String.length (String c t))) = true) as ->.
  { apply Z.ltb_lt. cbn [String.length]. lia. }
  rewrite IH. done.
Qed.

Lemma joined_filter_is_read_back_witness :
  Forall plain_trigger ["work"; "late night"; "sleep"]
  /\ triggersArray (Some "work,late night,sleep") = ["work"; "late night"; "sleep"].
Proof.
  assert (Forall plain_trigger ["work"; "late night"; "sleep"]) as Hplain.
  { repeat (constructor; [repeat split; [discriminate | reflexivity..]|]). constructor. }
  split; [exact Hplain|].
  exact (joined_filter_is_read_back ["work"; "late night"; "sleep"] Hplain).
Defined.

(** ** Mood history: triggers named like inherited members *)

Lemma inheritedText_not_empty (k s : string) : JS.inheritedText k +:+ s <> "".
Proof.
  unfold JS.inheritedText.
  destruct (String.eqb k "__proto__"); [done|].
  destruct (String.eqb k "constructor"); done.
Qed.

Section inherited.
Variable k : string.
Hypothesis is_inherited : k ∈ JS.ObjectPrototype.
Hypothesis not_proto : k <> "__proto__".

Lemma count_trigger_inherited (c : gmap string jsval) (t : string) (n : nat) :
  c !! k = glued k n ->
  count_trigger c t !! k = glued k (n + length (filter (k =.) [t])).
Proof.
  intros Hc. unfold count_trigger, set.
  rewrite filter_cons, filter_nil.
  destruct (decide (k = t)) as [<-|Hne]; cbn [length].
  - destruct (String.eqb_spec k "__proto__") as [Heq|_]; [done|].
    rewrite lookup_insert_eq. unfold get. rewrite Hc.
    replace (n + 1)%nat with (S n) by lia.
    destruct n as [|n]; cbn [glued or_zero_plus_one].
    + unfold JS.inherited. rewrite bool_decide_eq_true_2 by done. done.
    + destruct (String.eqb_spec (JS.inheritedText k +:+ ones (S n)) "") as [Heq|_].
      * by apply inheritedText_not_empty in Heq.
      * rewrite append_assoc. done.
  - rewrite Nat.add_0_r.
    destruct (String.eqb t "__proto__"); [done|].
    rewrite lookup_insert_ne; done.
Qed.

Lemma count_entry_inherited (ts : list string) (c : gmap string jsval) (n : nat) :
  c !! k = glued k n ->
  foldl count_trigger c ts !! k = glued k (n + length (filter (k =.) ts)).
Proof.
  revert c n. induction ts as [|t ts IH]; intros c n Hc; cbn [foldl].
  - rewrite Nat.add_0_r. done.
  - change (t :: ts) with ([t] ++ ts). rewrite filter_app, length_app, Nat.add_assoc.
    apply IH, count_trigger_inherited. done.
Qed.

Lemma count_entries_inherited (rows : list Entry.row) (c : gmap string jsval) (n : nat) :
  c !! k = glued k n ->
  foldl count_entry c rows !! k = glued k (n + Z.to_nat (occurrences k rows)).
Proof.
  revert c n. induction rows as [|entry rows IH]; intros c n Hc; cbn [foldl].
  - unfold occurrences. cbn. rewrite Nat.add_0_r. done.
  - replace (Z.to_nat (occurrences k (entry :: rows)))
      with (length (filter (k =.) (entry_triggers entry))
            + Z.to_nat (occurrences k rows))%nat.
    2:{ unfold occurrences. cbn [map concat]. rewrite filter_app, length_app. lia. }
    rewrite Nat.add_assoc. apply IH, count_entry_inherited. done.
Qed.
End inherited.

Lemma count_trigger_proto (c : gmap string jsval) (t : string) :
  c !! "__proto__" = None -> count_trigger c t !! "__proto__" = None.
Proof.
  intros Hc. unfold count_trigger, set.
  destruct (String.eqb_spec t "__proto__") as [->|Hne]; [done|].
  rewrite lookup_insert_ne; done.
Qed.

Lemma count_entries_proto (rows : list Entry.row) (c : gmap string jsval) :
  c !! "__proto__" = None -> foldl count_entry c rows !! "__proto__" = None.
Proof.
  revert c. induction rows as [|entry rows IH]; intros c Hc; cbn [foldl]; [done|].
  apply IH. unfold count_entry.
  generalize (default [] (Entry.triggers entry)). intros ts.
  revert c Hc. induction ts as [|t ts IHts]; intros c Hc; cbn [foldl]; [done|].
  apply IHts, count_trigger_proto. done.
Qed.

(** X12. Triggers named like members of [Object.prototype] are not
    counted.  The frequency table never has the key [__proto__], however
    often the rows write it.  For any other inherited name ([constructor],
    [toString], ...) the table has no key when no row writes it, and
    otherwise holds a text, not a number: the text of the inherited member
    followed by one character 1 for each time the rows write the name. *)
Theorem inherited_names_are_not_counted (rows : list Entry.row) (k : string)
    (Hinherited : k ∈ JS.ObjectPrototype) :
  count_triggers rows !! k =
    if decide (k = "__proto__") then None
    else
      match Z.to_nat (occurrences k rows) with
      | O => None
      | S n => Some (Str (JS.inheritedText k +:+ ones (S n)))
      end.
Proof.
  unfold count_triggers. destruct (decide (k = "__proto__")) as [->|Hne].
  - apply count_entries_proto. done.
  - rewrite (count_entries_inherited k Hinherited Hne rows ∅ 0) by done.
    cbn [Nat.add]. destruct (Z.to_nat (occurrences k rows)); done.
Qed.

Lemma inherited_names_are_not_counted_witness :
  let rows :=
    [ {| Entry.mood := "sad"; Entry.triggers := Some ["toString"; "__proto__"];
         Entry.created_at := 1 |};
      {| Entry.mood := "calm"; Entry.triggers := Some ["toString"];
         Entry.created_at := 0 |} ] in
  count_triggers rows !! "toString"
    = Some (Str "function toString() { [native code] }11")
  /\ count_triggers rows !! "__proto__" = None.
Proof.
  intros rows. split.
  - exact (inherited_names_are_not_counted rows "toString"
             ltac:(apply (bool_decide_unpack _); vm_compute; exact I)).
  - exact (inherited_names_are_not_counted rows "__proto__"
             ltac:(apply (bool_decide_unpack _); vm_compute; exact I)).
Defined.

(** ** Songs *)

Example encodeURIComponent_examples :
  encodeURIComponent "happy & sad?" = "happy%20%26%20sad%3F"
  /\ encodeURIComponent "a/b=c#d+e" = "a%2Fb%3Dc%23d%2Be"
  /\ encodeURIComponent "It's (ok)!~*" = "It's%20(ok)!~*"
  /\ encodeURIComponent (String (ascii_of_nat 233) "") = "%C3%A9"
  /\ encodeURIComponent (String (ascii_of_nat 160) "") = "%C2%A0".
Proof. repeat split; reflexivity. Qed.

Lemma allChars_app (f : ascii -> bool) (s t : string) :
  allChars f (s +:+ t) = allChars f s && allChars f t.
Proof.
  induction s as [|c s IH]; [done|].
  rewrite append_cons. cbn [allChars]. rewrite IH, andb_assoc. done.
Qed.

Lemma encodeChar_safe (c : ascii) : allChars urlSafe (encodeChar c) = true.
Proof. destruct c as [[] [] [] [] [] [] [] []]; vm_compute; reflexivity. Qed.

Lemma encodeURIComponent_safe (s : string) :
  allChars urlSafe (encodeURIComponent s) = true.
Proof.
  induction s as [|c s IH]; [done|].
  cbn [encodeURIComponent]. rewrite allChars_app, encodeChar_safe, IH. done.
Qed.

Lemma encodeURIComponent_app (s t : string) :
  encodeURIComponent (s +:+ t) = encodeURIComponent s +:+ encodeURIComponent t.
Proof.
  induction s as [|c s IH]; [done|].
  rewrite append_cons. cbn [encodeURIComponent]. rewrite IH, append_assoc. done.
Qed.

(** X13. The mood cannot change the parameters of the song search.  In the
    URL the songs handler fetches, the mood appears only as its
    [encodeURIComponent] form followed by [%20music], between the fixed
    text up to [q=] and the fixed parameters after it; that form is made of
    unreserved characters and percent signs only, so it has no [&], [=],
    [#], [?] or space.  Variant B then appends the page token as it was
    sent. *)
Theorem songs_query_is_encoded (v : variant) (YOUTUBE_API_KEY : option string)
    (mood : string) (pageToken : option string) :
  let query := encodeURIComponent mood +:+ "%20music" in
  allChars urlSafe query = true
  /\ Forall (fun c => occursIn c query = false) ["&"; "="; "#"; "?"; " "; "/"]%char
  /\ songs_url v YOUTUBE_API_KEY mood pageToken =
       match v with
       | VariantA =>
           "https://www.googleapis.com/youtube/v3/search?part=snippet&type=video&q="
           +:+ query +:+ "&key=" +:+ envText YOUTUBE_API_KEY +:+ "&maxResults=5"
       | VariantB =>
           "https://www.googleapis.com/youtube/v3/search?part=snippet&type=video&q="
           +:+ query +:+ "&maxResults=5&key=" +:+ envText YOUTUBE_API_KEY
           +:+ match pageToken with
               | Some token => if decide (token = "") then "" else "&pageToken=" +:+ token
               | None => ""
               end
       end.
Proof.
  intros query.
  assert (query = encodeURIComponent (mood +:+ " music")) as Hquery.
  { subst query. rewrite encodeURIComponent_app. done. }
  assert (allChars urlSafe query = true) as Hsafe.
  { rewrite Hquery. apply encodeURIComponent_safe. }
  split; [done|]. split.
  - assert (forall c s, urlSafe c = false -> allChars urlSafe s = true ->
                        occursIn c s = false) as Habsent.
    { intros c s Hc. induction s as [|d s IH]; [done|].
      cbn [allChars occursIn]. intros [Hd Hs]%andb_true_iff.
      rewrite (IH Hs), orb_false_r. apply Ascii.eqb_neq. intros ->. congruence. }
    repeat (constructor; [by apply Habsent|]). constructor.
  - unfold songs_url. rewrite <- Hquery. destruct v; [done|].
    assert ((if JS.truthy pageToken then "&pageToken=" +:+ or_empty pageToken else "")
            = match pageToken with
              | Some token => if decide (token = "") then "" else "&pageToken=" +:+ token
              | None => ""
              end) as ->; [|reflexivity].
    destruct pageToken as [token|]; [|done].
    cbn [JS.truthy or_empty from_option id].
    destruct (decide (token = "")) as [->|Hne]; [done|].
    apply String.eqb_neq in Hne. rewrite Hne. done.
Qed.

(** X14. When the songs handler succeeds.  The answer is 200 exactly when
    the mood is present and the provider, asked for the URL of that mood,
    gives data without an [error] member; the body is then that data,
    unchanged.  A missing mood is answered 400 whatever the provider
    would say, and every other answer is 500. *)
Theorem songs_succeeds_iff {D E : Type} (v : variant) (YOUTUBE_API_KEY : option string)
    (fetch : string -> Songs.fetched D E) (mood pageToken : option string) :
  let r := songs v YOUTUBE_API_KEY fetch mood pageToken in
  let url := songs_url v YOUTUBE_API_KEY (or_empty mood) pageToken in
  (Songs.status r = 200 <->
     JS.truthy mood = true /\ exists data, fetch url = Songs.Json None data)
  /\ (forall data, JS.truthy mood = true -> fetch url = Songs.Json None data ->
        Songs.body r = Songs.Relayed data)
  /\ (Songs.status r = 400 <-> JS.truthy mood = false)
  /\ (Songs.status r = 200 \/ Songs.status r = 400 \/ Songs.status r = 500).
Proof.
  unfold songs. destruct (JS.truthy mood); cbn [negb].
  - destruct (fetch _) as [message|[error|] data]; cbn [Songs.status Songs.body].
    + repeat split; try done; [by intros (_ & data & ?) | auto].
    + repeat split; try done; [by intros (_ & data' & ?) | auto].
    + repeat split; try done; [eauto | by intros data' _ [= ->] | auto].
  - cbn [Songs.status Songs.body]. repeat split; try done; [by intros [? _] | auto].
Qed.

Lemma songs_succeeds_iff_witness :
  let provider (url : string) : Songs.fetched (list string) string :=
    Songs.Json None ["song one"; "song two"] in
  let r := songs VariantB (Some "key") provider (Some "calm") None in
  Songs.status r = 200 /\ Songs.body r = Songs.Relayed ["song one"; "song two"].
Proof.
  intros provider r.
  pose proof (songs_succeeds_iff VariantB (Some "key") provider (Some "calm") None)
    as (Hstatus & Hbody & _).
  split.
  - apply Hstatus. split; [reflexivity|]. eexists. reflexivity.
  - apply Hbody; reflexivity.
Defined.
